(** * hosts.py: CSV to Ansible dynamic inventory

    A shallow embedding of [ansible/inventories/prd-sg1n/hosts.py] and the
    properties of its pipeline: configuration, CSV loading, group
    classification, inventory assembly, output.

    Conventions of the model.
    - Text is a [string] whose characters are code points below 256; Python
      compares strings by code point, which is [String.compare].
    - A dict read by key only is a [gmap]; a dict whose iteration order is
      observed is an association list in insertion order.
    - A Python exception is a value of [exn]; a computation that may raise
      returns a [result].
    - Library code (the csv tokenizer, [json.loads], path resolution, the
      file system, [os.environ], writing to [sys.stdout]) is the [world] the
      program runs in; what [argparse] makes of the command line is the
      [command_line] a run is given.
    - The [Protocol] classes of the source have one implementation each and
      no behaviour of their own; the embedding names the implementations.
    - A host name is whatever [row["vm_name"]] holds, a cell; the rows the
      loader keeps have a non-empty string there. *)

From Stdlib Require Import Ascii NArith.
From stdpp Require Import gmap strings list fin_maps sorting.

(** ** Text: the [str] methods the program calls *)

Module Text.

Local Open Scope N_scope.

Definition code (c : ascii) : N := N_of_ascii c.

(** [str.isspace] on one character, below code point 256. *)
Definition is_space (c : ascii) : bool :=
  let n := code c in
  ((9 <=? n) && (n <=? 13)) || ((28 <=? n) && (n <=? 32))
  || (n =? 133) || (n =? 160).

(** [str.lower] on one character, below code point 256. *)
Definition lower_char (c : ascii) : ascii :=
  let n := code c in
  if ((65 <=? n) && (n <=? 90)) || ((192 <=? n) && (n <=? 214))
     || ((216 <=? n) && (n <=? 222))
  then ascii_of_N (n + 32) else c.

Fixpoint lower (s : string) : string :=
  match s with
  | EmptyString => EmptyString
  | String c s' => String (lower_char c) (lower s')
  end.

Fixpoint lstrip (s : string) : string :=
  match s with
  | EmptyString => EmptyString
  | String c s' => if is_space c then lstrip s' else s
  end.

Fixpoint rstrip (s : string) : string :=
  match s with
  | EmptyString => EmptyString
  | String c s' =>
      match rstrip s' with
      | EmptyString => if is_space c then EmptyString else String c EmptyString
      | r => String c r
      end
  end.

(** [s.strip()] *)
Definition strip (s : string) : string := rstrip (lstrip s).

(** [s.split(",")]: every comma separates, empty pieces are kept. *)
Fixpoint split_comma (s : string) : list string :=
  match s with
  | EmptyString => [EmptyString]
  | String c s' =>
      if Ascii.eqb c ","%char then EmptyString :: split_comma s'
      else match split_comma s' with
           | piece :: rest => String c piece :: rest
           | [] => [String c EmptyString]
           end
  end.

(** [s.startswith(p)] *)
Definition startswith (p s : string) : bool := String.prefix p s.

(** [sep.join(l)] *)
Definition join (sep : string) (l : list string) : string := String.concat sep l.

(** Python's [<=] on [str]. *)
Definition le (s1 s2 : string) : Prop := String.leb s1 s2 = true.

#[global] Instance le_dec : RelDecision le.
Proof. intros s1 s2. unfold le. apply _. Defined.

(** [sorted(l)] on a list of strings. *)
Definition sorted (l : list string) : list string := merge_sort le l.

End Text.

(** ** Python values, exceptions, results *)

(** A CSV cell as [csv.DictReader] gives it: a [str], or [None] for a field
    the line is too short to hold. *)
Abbreviation cell := (option string).

(** Truth value of [x] for a cell, also behind [row.get(key)]: [None] and the
    empty string are false. *)
Definition truthy_cell (v : cell) : bool :=
  match v with
  | Some s => negb (String.eqb s "")
  | None => false
  end.

Definition truthy (v : option cell) : bool := from_option truthy_cell false v.

(** [v or ""] *)
Definition or_empty (v : cell) : string := default "" v.

Inductive py_type := TNoneType | TBool | TInt | TFloat | TStr | TList.

(** The exceptions that occur, each with what [str(e)] gives where the
    program prints it. [JSONDecodeError] and [UnicodeEncodeError] are
    subclasses of [ValueError]; [OSError] stands for its subclasses other than
    [FileNotFoundError]. *)
Inductive exn :=
| FileNotFoundError (msg : string)
| ValueError (msg : string)
| JSONDecodeError (msg : string)
| UnicodeEncodeError (msg : string)
| RecursionError (msg : string)
| OSError (msg : string)
| KeyError (key : string)
| AttributeError (obj : py_type) (attr : string)
| TypeError.

Inductive result (A : Type) :=
| Ok (a : A)
| Raise (e : exn).
Arguments Ok {A} a.
Arguments Raise {A} e.

#[global] Instance result_ret : MRet result := @Ok.
#[global] Instance result_bind : MBind result := λ A B f r,
  match r with
  | Ok a => f a
  | Raise e => Raise e
  end.

Definition is_Ok {A} (r : result A) : bool :=
  match r with
  | Ok _ => true
  | Raise _ => false
  end.

(** A [for] loop whose body may raise, threading the loop's state. *)
Fixpoint for_each {S A} (body : S → A → result S) (s : S) (l : list A) : result S :=
  match l with
  | [] => Ok s
  | x :: l' => s' ← body s x; for_each body s' l'
  end.

(** [d[key]] on a dict *)
Definition getitem {V} (d : gmap string V) (key : string) : result V :=
  match d !! key with
  | Some v => Ok v
  | None => Raise (KeyError key)
  end.

(** ** The inventory document and what is printed *)

Abbreviation hostvar := (gmap string cell).

(** The values of the inventory document: [{"hostvars": ...}] under [_meta],
    [{"hosts": [...]}] under a group name,
    [{"children": [...], "vars": {"uuid_index": ...}}] under [all]. *)
Inductive entry :=
| Meta (hostvars : gmap cell hostvar)
| Hosts (hosts : list cell)
| All (children : list string) (uuid_index : gmap string cell).

Abbreviation inventory := (gmap string entry).

(** What is written to [sys.stdout]: the value
    [print(InventoryOutput.as_json(data))] is called on, or the help text of
    [argparse]. *)
Inductive printed :=
| PrintedInventory (inv : inventory)
| PrintedHostvar (vars : hostvar)
| PrintedHelp.

(** ** The world the program runs in *)

(** What [self.state_map] can hold: a dict from raw state to canonical state
    (the annotation [Dict[str, str]] of [get_state_map]; a JSON object with
    other values is outside the model), or, since [json.loads] returns whatever
    the text denotes, an object of another type. *)
Inductive state_map_obj :=
| StateDict (table : gmap string string)
| NotDict (t : py_type).

(** A CSV file as [csv.DictReader] tokenizes it: the first line's fields
    ([None] for a file without any line), then the fields of each later line
    (an empty list for a blank line). *)
Record csv_file := CsvFile {
  fieldnames : option (list string);
  records : list (list string)
}.

(** [json.loads] returns the value a text denotes or raises:
    [JSONDecodeError] for a text that is not JSON, and, for texts that are,
    [RecursionError] (deep nesting) or a plain [ValueError] (an integer beyond
    the digit limit). Writing to [sys.stdout] raises when the stream cannot
    take the text, [UnicodeEncodeError] when its encoding lacks a character;
    nothing of the text is written then. *)
Record world := World {
  environ : gmap string string;          (* os.environ *)
  json_loads : string → result state_map_obj; (* json.loads *)
  resolve : string → string;             (* Path(p).expanduser().resolve() *)
  script_dir_csv : string;               (* Path(__file__).resolve().parent / "vm_data.csv" *)
  fs : string → option csv_file;         (* the files that exist *)
  print_raises : printed → option exn    (* writing to sys.stdout; None: written *)
}.

Record args := Args {
  arg_list : bool;
  arg_host : option string;
  arg_csv : option string
}.

(** What [parse_args] makes of the command line: the arguments, or one of
    the exits of [argparse] itself, for [--help] and for a command line it
    rejects. *)
Inductive command_line :=
| Parsed (a : args)
| HelpRequested
| Rejected (msg : string).

(** ** EnvConfig *)

Record flags := Flags {
  group_by_owner : bool;
  group_by_state : bool;
  group_by_custom : bool
}.

Module EnvConfig.

Record t := Make { cli_path : option string; state_map : state_map_obj }.

Definition getenv (w : world) (name : string) : option string := environ w !! name.

Definition default_state_map : gmap string string :=
  list_to_map
    [ ("on", "poweredon"); ("powered-on", "poweredon"); ("poweredon", "poweredon");
      ("off", "poweredoff"); ("powered-off", "poweredoff"); ("poweredoff", "poweredoff");
      ("del", "absent"); ("delete", "absent"); ("absent", "absent") ].

(** [except json.JSONDecodeError: pass] takes that exception and its
    subclasses only; any other exception of [json.loads] leaves the method. *)
Definition _load_state_map (w : world) : result state_map_obj :=
  match getenv w "INV_STATE_MAP" with
  | Some custom_map =>
      if negb (String.eqb custom_map "") then
        match json_loads w custom_map with
        | Ok parsed => Ok parsed
        | Raise (JSONDecodeError _) => Ok (StateDict default_state_map)
        | Raise e => Raise e
        end
      else Ok (StateDict default_state_map)
  | None => Ok (StateDict default_state_map)
  end.

Definition init (w : world) (cli_path : option string) : result t :=
  state_map ← _load_state_map w;
  Ok (Make cli_path state_map).

Definition get_csv_path (w : world) (self : t) : string :=
  match getenv w "INV_CSV" with
  | Some env_path =>
      if negb (String.eqb env_path "") then resolve w env_path
      else match cli_path self with
           | Some p => if negb (String.eqb p "") then resolve w p else script_dir_csv w
           | None => script_dir_csv w
           end
  | None =>
      match cli_path self with
      | Some p => if negb (String.eqb p "") then resolve w p else script_dir_csv w
      | None => script_dir_csv w
      end
  end.

Definition _envflag (w : world) (name : string) (default : bool) : bool :=
  match getenv w name with
  | None => default
  | Some v => bool_decide (Text.lower v ∈ ["1"; "true"; "yes"; "on"])
  end.

Definition get_flags (w : world) : flags :=
  {| group_by_owner := _envflag w "INV_GROUP_BY_OWNER" true;
     group_by_state := _envflag w "INV_GROUP_BY_STATE" true;
     group_by_custom := _envflag w "INV_GROUP_BY_CUSTOM" true |}.

Definition get_state_map (self : t) : state_map_obj := state_map self.

End EnvConfig.

(** [self.state_map.get((state or "").strip().lower(), "poweredon")], the body
    of both [_normalize_state] methods. *)
Definition normalize_with (sm : state_map_obj) (state : cell) : result string :=
  match sm with
  | StateDict table =>
      Ok (default "poweredon" (table !! Text.lower (Text.strip (or_empty state))))
  | NotDict t => Raise (AttributeError t "get")
  end.

(** One CSV row: column name to trimmed value. *)
Abbreviation row := (gmap string cell).

(** What goes to [sys.stderr]: [Warn m] is the line [WARN: m], [Error m] the
    line [ERROR: m], [Fatal e] the line [FATAL: ] followed by [str(e)];
    [Usage m] is the usage text of [argparse] with the error [m], and
    [Traceback e] the traceback of an exception nothing catches. *)
Inductive diag :=
| Warn (msg : string)
| Error (msg : string)
| Fatal (e : exn)
| Usage (msg : string)
| Traceback (e : exn).

(** [sorted(l)] where the elements are cells: [None] does not compare, so a
    list of two or more elements holding a [None] raises [TypeError]. *)
Definition sorted_cells (l : list cell) : result (list cell) :=
  match l with
  | [] | [_] => Ok l
  | _ => match mapM id l with
         | Some names => Ok (Some <$> Text.sorted names)
         | None => Raise TypeError
         end
  end.

(** ** CSVReader *)

Module CSVReader.

Definition init (required_cols : option (gset string)) : gset string :=
  match required_cols with
  | Some cols => if decide (cols = ∅) then {[ "vm_name"; "vm_ip_addr" ]} else cols
  | None => {[ "vm_name"; "vm_ip_addr" ]}
  end.

(** [d[k] = v] on a dict in insertion order: a key already there keeps its
    place and takes the new value. *)
Fixpoint od_set (k : string) (v : cell) (d : list (string * cell)) : list (string * cell) :=
  match d with
  | [] => [(k, v)]
  | (k', v') :: d' => if decide (k' = k) then (k, v) :: d' else (k', v') :: od_set k v d'
  end.

(** The dict [csv.DictReader] yields for one line: the fields zipped with
    the field names, [None] under the names a short line leaves out, and the
    surplus of a long line under the key [None]. *)
Record raw_row := RawRow {
  named : list (string * cell);
  restkey : option (list string)
}.

Definition dict_row (names : list string) (record : list string) : raw_row :=
  let d := foldl (λ d kv, od_set kv.1 (Some kv.2) d) [] (zip names record) in
  if decide (length names < length record)%nat then RawRow d (Some (drop (length names) record))
  else RawRow (foldl (λ d k, od_set k None d) d (drop (length record) names)) None.

(** [{k.strip(): (v.strip() if isinstance(v, str) else v) for k, v in raw.items()}] *)
Definition strip_row (raw : raw_row) : result row :=
  match restkey raw with
  | Some _ => Raise (AttributeError TNoneType "strip")
  | None => Ok (foldl (λ (acc : row) kv, <[Text.strip kv.1 := Text.strip <$> kv.2]> acc) ∅ (named raw))
  end.

Definition _validate_uniqueness (rows : list row) : result (list diag) :=
  '(seen, dups) ← for_each (λ (st : gset cell * list cell) (r : row),
                     name ← getitem r "vm_name";
                     Ok ({[ name ]} ∪ st.1,
                         if decide (name ∈ st.1) then st.2 ++ [name] else st.2))
                   (∅, []) rows;
  match dups with
  | [] => Ok []
  | _ => match mapM id (elements (list_to_set dups : gset cell)) with
         | Some names => Ok [Warn ("Duplicate vm_name: " +:+ Text.join ", " (Text.sorted names))]
         | None => Raise TypeError
         end
  end.

Definition read (w : world) (required_cols : gset string) (path : string)
  : result (list row * list diag) :=
  match fs w path with
  | None => Raise (FileNotFoundError ("CSV not found: " +:+ path))
  | Some f =>
      let names := default [] (fieldnames f) in
      let headers := Text.strip <$> names in
      match headers with
      | [] => Raise (ValueError "Empty CSV or missing header")
      | _ =>
          let missing := required_cols ∖ list_to_set headers in
          if decide (missing = ∅) then
            rows ← for_each (λ (rows : list row) record,
                      row ← strip_row (dict_row names record);
                      Ok (if truthy (row !! "vm_name") then rows ++ [row] else rows))
                    [] (filter (λ record, record ≠ []) (records f));
            warnings ← _validate_uniqueness rows;
            Ok (rows, warnings)
          else
            Raise (ValueError ("Missing required columns: "
                               +:+ Text.join ", " (Text.sorted (elements missing))))
      end
  end.

End CSVReader.

(** ** DynamicGrouper *)

Abbreviation groups := (gmap string (list cell)).

Module DynamicGrouper.

Record t := Make { flags : flags; state_map : state_map_obj }.

Definition init (w : world) (config : EnvConfig.t) : t :=
  Make (EnvConfig.get_flags w) (EnvConfig.get_state_map config).

Definition _normalize_state (self : t) (state : cell) : result string :=
  normalize_with (state_map self) state.

(** [groups[name].append(hostname)] on a [defaultdict(list)] *)
Definition append (name : string) (hostname : cell) (gs : groups) : groups :=
  <[name := gs !!! name ++ [hostname]]> gs.

(** [any(hostname in hosts for group, hosts in groups.items()
         if group.startswith("vm_"))] *)
Definition in_vm_group (hostname : cell) (gs : groups) : bool :=
  existsb (λ kv : string * list cell,
             Text.startswith "vm_" kv.1 && bool_decide (hostname ∈ kv.2))
          (map_to_list gs).

Definition custom_rule (self : t) (r : row) (hostname : cell) (gs : groups) : groups :=
  if group_by_custom (flags self) && truthy (r !! "vm_groups") then
    foldl (λ gs group,
             let group := Text.strip group in
             if negb (String.eqb group "") then append group hostname gs else gs)
          gs (Text.split_comma (or_empty (default None (r !! "vm_groups"))))
  else gs.

Definition owner_rule (self : t) (r : row) (hostname : cell) (gs : groups) : groups :=
  if group_by_owner (flags self) && truthy (r !! "vm_owner") then
    append ("owner_" +:+ or_empty (default None (r !! "vm_owner"))) hostname gs
  else gs.

Definition state_rule (self : t) (r : row) (hostname : cell) (gs : groups) : result groups :=
  if group_by_state (flags self) && truthy (r !! "vm_state") then
    state ← _normalize_state self (default None (r !! "vm_state"));
    Ok (append ("state_" +:+ state) hostname gs)
  else Ok gs.

Definition default_rule (hostname : cell) (gs : groups) : groups :=
  if negb (in_vm_group hostname gs) then append "ungrouped" hostname gs else gs.

(** The body of the loop of [generate_groups]. *)
Definition group_row (self : t) (gs : groups) (r : row) : result groups :=
  hostname ← getitem r "vm_name";
  gs ← state_rule self r hostname (owner_rule self r hostname (custom_rule self r hostname gs));
  Ok (default_rule hostname gs).

Definition generate_groups (self : t) (rows : list row) : result groups :=
  for_each (group_row self) ∅ rows.

End DynamicGrouper.

(** ** AnsibleInventoryBuilder *)

Module AnsibleInventoryBuilder.

Record t := Make { grouper : DynamicGrouper.t; state_map : state_map_obj }.

Definition init (grouper : DynamicGrouper.t) (config : EnvConfig.t) : t :=
  Make grouper (EnvConfig.get_state_map config).

Definition _normalize_state (self : t) (state : cell) : result string :=
  normalize_with (state_map self) state.

(** The body of the first loop of [build]. *)
Definition build_row (self : t) (st : gmap cell hostvar * gmap string cell) (r : row)
  : result (gmap cell hostvar * gmap string cell) :=
  hostname ← getitem r "vm_name";
  let vm_uuid := default (Some "") (r !! "vm_uuid") in
  let vm_uuid := if String.eqb (Text.lower (or_empty vm_uuid)) "none" then None else vm_uuid in
  let hostvar : hostvar := r in
  let hostvar := <["ansible_host" := default (Some "") (r !! "vm_ip_addr")]> hostvar in
  hostvar ← match r !! "vm_state" with
            | Some state =>
                state ← _normalize_state self state;
                Ok (<["vmware_state" := Some state]> hostvar)
            | None => Ok hostvar
            end;
  let hostvars := <[hostname := hostvar]> st.1 in
  Ok (hostvars,
      if truthy_cell vm_uuid then <[or_empty vm_uuid := hostname]> st.2 else st.2).

Definition build (self : t) (rows : list row) : result inventory :=
  '(hostvars, uuid_index) ← for_each (build_row self) (∅, ∅) rows;
  groups ← DynamicGrouper.generate_groups (grouper self) rows;
  let inv : inventory := {[ "_meta" := Meta hostvars ]} in
  inv ← for_each (λ (inv : inventory) group,
           hosts ← sorted_cells (groups !!! group);
           Ok (<[group := Hosts hosts]> inv))
        inv (Text.sorted (elements (dom groups)));
  Ok (<["all" := All (Text.sorted (elements (dom groups))) uuid_index]> inv).

End AnsibleInventoryBuilder.

(** ** InventoryOutput *)

Module InventoryOutput.

Definition print_list (inv : inventory) : printed := PrintedInventory inv.

(** [inventory.get("_meta", {}).get("hostvars", {})] *)
Definition meta_hostvars (inv : inventory) : gmap cell hostvar :=
  match inv !! "_meta" with
  | Some (Meta hostvars) => hostvars
  | _ => ∅
  end.

Definition print_host (inv : inventory) (hostname : string) : printed :=
  PrintedHostvar (default ∅ (meta_hostvars inv !! Some hostname)).

End InventoryOutput.

(** ** Application *)

Record outcome := Outcome {
  stdout : list printed;
  stderr : list diag;
  exit_code : Z
}.

Module Application.

Definition required_cols : gset string := {[ "vm_name"; "vm_state"; "vm_ip_addr" ]}.

(** The [except] clauses of [run]; [warnings] is what the [try] block had
    written to [sys.stderr] by then. The first clause takes
    [FileNotFoundError], [ValueError] and the subclasses of [ValueError]. *)
Definition handler (warnings : list diag) (e : exn) : outcome :=
  match e with
  | FileNotFoundError msg | ValueError msg | JSONDecodeError msg | UnicodeEncodeError msg =>
      Outcome [] (warnings ++ [Error msg]) 2
  | _ => Outcome [] (warnings ++ [Fatal e]) 1
  end.

(** The components [run] sets up; [EnvConfig(args.csv)] may raise. *)
Definition config (w : world) (a : args) : result EnvConfig.t := EnvConfig.init w (arg_csv a).
Definition reader : gset string := CSVReader.init (Some required_cols).
Definition grouper (w : world) (config : EnvConfig.t) : DynamicGrouper.t :=
  DynamicGrouper.init w config.
Definition builder (w : world) (config : EnvConfig.t) : AnsibleInventoryBuilder.t :=
  AnsibleInventoryBuilder.init (grouper w config) config.
Definition csv_path (w : world) (config : EnvConfig.t) : string :=
  EnvConfig.get_csv_path w config.

(** What the output step prints: [if args.host: ... else: ...]. *)
Definition output (a : args) (inventory : inventory) : printed :=
  if truthy_cell (arg_host a)
  then InventoryOutput.print_host inventory (or_empty (arg_host a))
  else InventoryOutput.print_list inventory.

(** The [try] statement of [run], for parsed arguments. *)
Definition pipeline (w : world) (a : args) : outcome :=
  match config w a with
  | Raise e => handler [] e
  | Ok config =>
      match CSVReader.read w reader (csv_path w config) with
      | Raise e => handler [] e
      | Ok (rows, warnings) =>
          match AnsibleInventoryBuilder.build (builder w config) rows with
          | Raise e => handler warnings e
          | Ok inventory =>
              match print_raises w (output a inventory) with
              | Some e => handler warnings e
              | None => Outcome [output a inventory] warnings 0
              end
          end
      end
  end.

(** [parse_args] stands before the [try]: for [--help] it prints the help
    text and exits with 0, and an exception of that print is caught by
    nothing, which ends the process with a traceback and exit code 1; a
    command line it rejects ends with the usage text on [sys.stderr] and exit
    code 2. *)
Definition run (w : world) (c : command_line) : outcome :=
  match c with
  | Parsed a => pipeline w a
  | HelpRequested =>
      match print_raises w PrintedHelp with
      | Some e => Outcome [] [Traceback e] 1
      | None => Outcome [PrintedHelp] [] 0
      end
  | Rejected msg => Outcome [] [Usage msg] 2
  end.

End Application.

(** * The vocabulary of the statements

    Notions the properties below are stated with, and the sample inputs
    they are tried on. *)

Section text_vocabulary.
Import Text.

(** A string of white space only. *)
Fixpoint blank (s : string) : bool :=
  match s with
  | EmptyString => true
  | String c s' => is_space c && blank s'
  end.

End text_vocabulary.

(** The state map when [INV_STATE_MAP] is not set: the built-in table. *)
Definition builtin : state_map_obj := StateDict EnvConfig.default_state_map.

(** A row given by its columns, for the examples. *)
Definition row_of (columns : list (string * string)) : row :=
  list_to_map (prod_map id Some <$> columns).

(** The classifier with every rule enabled and the built-in state table. *)
Definition all_rules : DynamicGrouper.t := DynamicGrouper.Make (Flags true true true) builtin.

Section grouper_vocabulary.
Import DynamicGrouper.
Implicit Types (gs : groups) (r : row) (hostname : cell) (g : string).

(** How often a name occurs in a list of names. *)
Definition occurrences (g : string) (names : list string) : nat :=
  length (filter (λ name, name = g) names).

(** One [append] per name of the list. *)
Definition append_all (names : list string) hostname gs : groups :=
  foldl (λ gs name, append name hostname gs) gs names.

(** The group names the custom-group rule appends to for a row. *)
Definition custom_targets (self : t) r : list string :=
  if group_by_custom (flags self) && truthy (r !! "vm_groups") then
    filter (λ group, group ≠ "")
           (Text.strip <$> Text.split_comma (or_empty (default None (r !! "vm_groups"))))
  else [].

(** The group name the owner rule appends to for a row, if it fires. *)
Definition owner_targets (self : t) r : list string :=
  if group_by_owner (flags self) && truthy (r !! "vm_owner") then
    ["owner_" +:+ or_empty (default None (r !! "vm_owner"))]
  else [].

(** The group name the state rule appends to for a row, if it fires; the
    normalization it starts with may raise. *)
Definition state_targets (self : t) r : result (list string) :=
  if group_by_state (flags self) && truthy (r !! "vm_state") then
    state ← _normalize_state self (default None (r !! "vm_state"));
    Ok ["state_" +:+ state]
  else Ok [].

(** The group names the three rules append to for a row, in order. *)
Definition rule_targets (self : t) r : result (list string) :=
  states ← state_targets self r;
  Ok (custom_targets self r ++ owner_targets self r ++ states).

(** The groups after the custom-group, owner and state rules have run for a
    row, before the fallback. *)
Definition after_rules (self : t) r hostname gs : result groups :=
  state_rule self r hostname (owner_rule self r hostname (custom_rule self r hostname gs)).

(** The host names of the rows, as [row["vm_name"]] finds them. *)
Definition hostnames (rows : list row) : list (option cell) :=
  (λ r : row, r !! "vm_name") <$> rows.

(** A row with the custom-group column [web, db]. *)
Definition web_row : row :=
  row_of [("vm_name", "vm1"); ("vm_state", "on"); ("vm_ip_addr", "10.0.0.1");
          ("vm_groups", "web, db")].

(** What the classifier makes of [web_row] alone. *)
Definition web_groups : groups :=
  list_to_map [("web", [Some "vm1"]); ("db", [Some "vm1"]);
               ("state_poweredon", [Some "vm1"]); ("ungrouped", [Some "vm1"])].

(** A row whose custom-group column is [a,b]. *)
Definition ab_row : row :=
  row_of [("vm_name", "vm1"); ("vm_state", "on"); ("vm_ip_addr", "10.0.0.1");
          ("vm_groups", "a,b")].

(** A row whose custom-group column repeats a token. *)
Definition aa_row : row :=
  row_of [("vm_name", "vm1"); ("vm_state", "on"); ("vm_ip_addr", "10.0.0.1");
          ("vm_groups", "a,a")].

End grouper_vocabulary.

Section builder_vocabulary.
Import AnsibleInventoryBuilder.
Implicit Types (r : row) (hostname : cell) (u : string).

(** The key under which the first loop of [build] indexes a row, if any. *)
Definition uuid_key r : option string :=
  let vm_uuid := default (Some "") (r !! "vm_uuid") in
  let vm_uuid := if String.eqb (Text.lower (or_empty vm_uuid)) "none" then None else vm_uuid in
  if truthy_cell vm_uuid then Some (or_empty vm_uuid) else None.

(** The builder over [all_rules] and the built-in state table. *)
Definition all_rules_builder : t := Make all_rules builtin.

(** Four rows: the UUID [123], the text [None] in two spellings, and [123]
    again on another host. *)
Definition uuid_rows : list row :=
  [ row_of [("vm_name", "vm1"); ("vm_state", "on"); ("vm_ip_addr", "10.0.0.1"); ("vm_uuid", "123")];
    row_of [("vm_name", "vm2"); ("vm_state", "off"); ("vm_ip_addr", "10.0.0.2"); ("vm_uuid", "None")];
    row_of [("vm_name", "vm3"); ("vm_state", "off"); ("vm_ip_addr", "10.0.0.3"); ("vm_uuid", "nOnE")];
    row_of [("vm_name", "vm4"); ("vm_state", "del"); ("vm_ip_addr", "10.0.0.4"); ("vm_uuid", "123")] ].

End builder_vocabulary.

(** A world with the given environment whose only file is the default CSV
    next to the program; [json.loads] knows the text [[]], an empty list, and
    takes every other text for no JSON; [sys.stdout] takes every text. *)
Definition sample_world (env : gmap string string) (f : csv_file) : world :=
  World env
        (λ text, if String.eqb text "[]" then Ok (NotDict TList)
                 else Raise (JSONDecodeError "Expecting value"))
        (λ p, p) "/inv/vm_data.csv"
        (λ p, if String.eqb p "/inv/vm_data.csv" then Some f else None)
        (λ _, None).

(** The three-row sample: owners alice and bob, states on, off and del. *)
Definition sample_csv : csv_file :=
  CsvFile (Some ["vm_name"; "vm_state"; "vm_ip_addr"; "vm_owner"])
          [ ["vm1"; "on"; "10.0.0.1"; "alice"];
            ["vm2"; "off"; "10.0.0.2"; "bob"];
            ["vm3"; "del"; "10.0.0.3"; ""] ].

(** The variables of [vm2] in the inventory of [sample_csv]. *)
Definition vm2_vars : hostvar :=
  list_to_map [("vm_name", Some "vm2"); ("vm_state", Some "off"); ("vm_ip_addr", Some "10.0.0.2");
               ("vm_owner", Some "bob"); ("ansible_host", Some "10.0.0.2");
               ("vmware_state", Some "poweredoff")].

(** The command line with its [--host] argument replaced. *)
Definition with_host (a : args) (host : option string) : args :=
  Args (arg_list a) host (arg_csv a).

(** A run that printed the whole inventory and nothing else, with exit
    code 0. *)
Definition listed (o : outcome) : bool :=
  match o with
  | Outcome [PrintedInventory _] _ 0 => true
  | _ => false
  end.

(** A CSV whose header lacks the power-state and IP-address columns. *)
Definition name_only_csv : csv_file :=
  CsvFile (Some ["vm_name"; " owner "]) [["vm1"; "alice"]].

(** The environment that sets [INV_STATE_MAP] to the JSON text [[]]. *)
Definition list_state_map : gmap string string := {[ "INV_STATE_MAP" := "[]" ]}.

(** A valid CSV without a data line. *)
Definition header_only_csv : csv_file :=
  CsvFile (Some ["vm_name"; "vm_state"; "vm_ip_addr"]) [].

(** A valid CSV whose only row has an empty power-state. *)
Definition stateless_csv : csv_file :=
  CsvFile (Some ["vm_name"; "vm_state"; "vm_ip_addr"]) [["vm1"; ""; "10.0.0.1"]].

(** A valid CSV whose only row asks for the custom group [_meta]. *)
Definition meta_csv : csv_file :=
  CsvFile (Some ["vm_name"; "vm_state"; "vm_ip_addr"; "vm_groups"])
          [["h1"; "on"; "10.0.0.1"; "_meta"]].

(** ** Further vocabulary *)

(** The world with another environment. *)
Definition with_environ (w : world) (env : gmap string string) : world :=
  World env (json_loads w) (resolve w) (script_dir_csv w) (fs w) (print_raises w).

(** The command line with another positional CSV path. *)
Definition with_csv (a : args) (csv : option string) : args :=
  Args (arg_list a) (arg_host a) csv.

(** A world like [sample_world] whose [json.loads] knows the text [{}], an
    empty dict. *)
Definition dict_world (env : gmap string string) (f : csv_file) : world :=
  World env
        (λ text, if String.eqb text "{}" then Ok (StateDict ∅)
                 else Raise (JSONDecodeError "Expecting value"))
        (λ p, p) "/inv/vm_data.csv"
        (λ p, if String.eqb p "/inv/vm_data.csv" then Some f else None)
        (λ _, None).

(** The exceptions the second [except] clause of [run] takes. *)
Definition unexpected (e : exn) : bool :=
  match e with
  | FileNotFoundError _ | ValueError _ | JSONDecodeError _ | UnicodeEncodeError _ => false
  | _ => true
  end.


(** How often an element occurs in a list. *)
Definition times {A} `{EqDecision A} (x : A) (l : list A) : nat :=
  length (filter (λ y, y = x) l).

(** The classifier with every rule disabled. *)
Definition no_rules (sm : state_map_obj) : DynamicGrouper.t :=
  DynamicGrouper.Make (Flags false false false) sm.

(** A valid CSV whose second line has a field too many. *)
Definition overlong_csv : csv_file :=
  CsvFile (Some ["vm_name"; "vm_state"; "vm_ip_addr"])
          [["vm1"; "on"; "10.0.0.1"]; ["vm2"; "off"; "10.0.0.2"; "extra"]].

(** A valid CSV with padded cells and a line without a host name, and the
    rows the loader makes of it. *)
Definition ragged_csv : csv_file :=
  CsvFile (Some [" vm_name"; "vm_state "; "vm_ip_addr"; "vm_owner"])
          [[" vm1 "; "on"; " 10.0.0.1"; "alice "]; []; ["  "; "on"; "10.0.0.3"; "bob"]].

Definition ragged_rows : list row :=
  [ row_of [("vm_name", "vm1"); ("vm_state", "on"); ("vm_ip_addr", "10.0.0.1");
            ("vm_owner", "alice")] ].

(** Rows in which [vm1] comes three times and [vm0] twice. *)
Definition repeated_rows : list row :=
  [ row_of [("vm_name", "vm1")]; row_of [("vm_name", "vm0")]; row_of [("vm_name", "vm1")];
    row_of [("vm_name", "vm2")]; row_of [("vm_name", "vm0")]; row_of [("vm_name", "vm1")] ].

(** A row with an owner, a state and a custom group whose name starts with
    [vm_]. *)
Definition vm_row : row :=
  row_of [("vm_name", "vm1"); ("vm_state", "Off"); ("vm_ip_addr", "10.0.0.1");
          ("vm_owner", "Al,ice"); ("vm_groups", "vm_web")].

(** A row with a column that has the name of a computed variable. *)
Definition shadow_row : row :=
  row_of [("vm_name", "vm1"); ("vm_state", "del"); ("vm_ip_addr", "10.0.0.1");
          ("ansible_host", "ignored"); ("note", "kept")].

(** A world whose [INV_STATE_MAP] is not JSON. *)
Definition garbled_world : world :=
  sample_world {[ "INV_STATE_MAP" := "{on: off" ]} sample_csv.

(** A world whose [INV_STATE_MAP] is nested too deep for [json.loads]. *)
Definition nested_world : world :=
  World {[ "INV_STATE_MAP" := "[[[[" ]}
        (λ _, Raise (RecursionError "maximum recursion depth exceeded"))
        (λ p, p) "/inv/vm_data.csv"
        (λ p, if String.eqb p "/inv/vm_data.csv" then Some sample_csv else None)
        (λ _, None).

(** A row with nothing but the required columns. *)
Definition plain_row : row :=
  row_of [("vm_name", "vm0"); ("vm_state", "on"); ("vm_ip_addr", "10.0.0.9")].

(** The classifier with the owner rule disabled. *)
Definition no_owner_rule : DynamicGrouper.t :=
  DynamicGrouper.Make (Flags false true true) builtin.

(** The values that switch a flag on, once lower-cased. *)
Definition truthy_tokens : list string := ["1"; "true"; "yes"; "on"].

(** A valid CSV with a short line, a blank line, a line without a name and a
    repeated host name. *)
Definition untidy_csv : csv_file :=
  CsvFile (Some ["vm_name"; "vm_state"; "vm_ip_addr"; "vm_owner"])
          [["vm1"; "on"; "10.0.0.1"; "alice"]; ["vm2"; "off"]; [];
           [""; "on"; "10.0.0.3"; "bob"]; ["vm1"; "del"; "10.0.0.4"; ""]].

(** * Properties *)

(** ** Trimming and lower-casing *)

Section text_facts.
Import Text.

Lemma is_space_lower_char c : is_space (lower_char c) = is_space c.
Proof. by destruct c as [[] [] [] [] [] [] [] []]. Qed.

Lemma lstrip_lower s : lstrip (lower s) = lower (lstrip s).
Proof.
  induction s as [|c s IH]; simpl; [done|].
  rewrite is_space_lower_char. by destruct (is_space c).
Qed.

Lemma rstrip_lower s : rstrip (lower s) = lower (rstrip s).
Proof.
  induction s as [|c s IH]; simpl; [done|].
  rewrite IH, is_space_lower_char.
  destruct (rstrip s); simpl; [by destruct (is_space c)|done].
Qed.

Lemma strip_lower s : strip (lower s) = lower (strip s).
Proof. unfold strip. by rewrite lstrip_lower, rstrip_lower. Qed.

Lemma lstrip_blank_app p s : blank p = true → lstrip (p +:+ s) = lstrip s.
Proof.
  induction p as [|c p IH]; simpl; [done|].
  intros [Hc Hp]%andb_true_iff. rewrite Hc. auto.
Qed.

Lemma rstrip_blank p : blank p = true → rstrip p = "".
Proof.
  induction p as [|c p IH]; simpl; [done|].
  intros [Hc Hp]%andb_true_iff. by rewrite IH, Hc.
Qed.

Lemma rstrip_app_blank s p : blank p = true → rstrip (s +:+ p) = rstrip s.
Proof.
  intros Hp. induction s as [|c s IH]; simpl; [by apply rstrip_blank|].
  by rewrite IH.
Qed.

Lemma strip_padding p1 s p2 :
  blank p1 = true → blank p2 = true → strip (p1 +:+ s +:+ p2) = strip s.
Proof.
  intros H1 H2. unfold strip. rewrite lstrip_blank_app by done. clear p1 H1.
  assert (lstrip p2 = "") as Hp2.
  { induction p2 as [|c p IH]; simpl in *; [done|].
    apply andb_true_iff in H2 as [Hc Hp]. rewrite Hc. auto. }
  induction s as [|c s IH].
  - change ("" +:+ p2) with p2. by rewrite Hp2.
  - change (String c s +:+ p2) with (String c (s +:+ p2)). simpl.
    destruct (is_space c); [done|].
    change (String c (s +:+ p2)) with (String c s +:+ p2).
    by apply rstrip_app_blank.
Qed.

End text_facts.

(** ** State normalization *)

(** C4. Under the built-in table the raw state is trimmed and lower-cased
    before the lookup: two raw values with the same lower-casing normalize
    alike, white space around a raw value does not matter, [Powered-On],
    [poweredon] and [on] give [poweredon], a raw value whose key is not in the
    table (such as [weird]) gives [poweredon], and a raw value whose key is in
    the table gives the table's entry; the result is always one of
    [poweredon], [poweredoff] and [absent]. *)
Theorem normalize_state_builtin :
  (∀ a b, Text.lower a = Text.lower b →
          normalize_with builtin (Some a) = normalize_with builtin (Some b)) ∧
  (∀ p1 raw p2, blank p1 = true → blank p2 = true →
          normalize_with builtin (Some (p1 +:+ raw +:+ p2)) = normalize_with builtin (Some raw)) ∧
  normalize_with builtin (Some "Powered-On") = Ok "poweredon" ∧
  normalize_with builtin (Some "poweredon") = Ok "poweredon" ∧
  normalize_with builtin (Some "on") = Ok "poweredon" ∧
  normalize_with builtin (Some "weird") = Ok "poweredon" ∧
  (∀ raw, EnvConfig.default_state_map !! Text.lower (Text.strip raw) = None →
          normalize_with builtin (Some raw) = Ok "poweredon") ∧
  (∀ raw canonical,
          EnvConfig.default_state_map !! Text.lower (Text.strip raw) = Some canonical →
          normalize_with builtin (Some raw) = Ok canonical) ∧
  (∀ state, ∃ canonical,
          normalize_with builtin state = Ok canonical ∧
          canonical ∈ ["poweredon"; "poweredoff"; "absent"]).
Proof.
  repeat split; try reflexivity.
  - intros a b Hab. simpl. by rewrite <- !strip_lower, Hab.
  - intros p1 raw p2 H1 H2. simpl. by rewrite strip_padding.
  - intros raw Hraw. simpl. by rewrite Hraw.
  - intros raw canonical Hraw. simpl. by rewrite Hraw.
  - intros state. eexists. split; [reflexivity|].
    destruct (EnvConfig.default_state_map !! _) as [canonical|] eqn:Hkey; simpl; [|by left].
    apply elem_of_list_to_map_2 in Hkey. revert Hkey.
    generalize (Text.lower (Text.strip (or_empty state))). intros key Hkey.
    repeat (apply elem_of_cons in Hkey as [[= _ ->]|Hkey]; [by repeat constructor|]).
    by apply elem_of_nil in Hkey.
Qed.

Lemma normalize_state_builtin_witness :
  normalize_with builtin (Some "OFF") = normalize_with builtin (Some "off")
  ∧ normalize_with builtin (Some "  Del ") = normalize_with builtin (Some "Del")
  ∧ normalize_with builtin (Some "n/a") = Ok "poweredon"
  ∧ normalize_with builtin (Some " DELETE") = Ok "absent".
Proof.
  destruct normalize_state_builtin as (Hcase & Hpad & _ & _ & _ & _ & Habsent & Hpresent & _).
  split; [|split; [|split]].
  - apply Hcase. reflexivity.
  - apply (Hpad "  " "Del" " "); reflexivity.
  - apply Habsent. reflexivity.
  - apply Hpresent. reflexivity.
Defined.

(** ** Loops that may raise *)

Lemma is_Ok_inv {A} (r : result A) : is_Ok r = true → ∃ a, r = Ok a.
Proof. destruct r; [eauto|done]. Qed.

Lemma for_each_cons_Ok {S A} (body : S → A → result S) s x l s'' :
  for_each body s (x :: l) = Ok s'' ↔
  ∃ s', body s x = Ok s' ∧ for_each body s' l = Ok s''.
Proof.
  simpl. destruct (body s x) as [s'|e]; simpl.
  - split; [eauto|]. by intros (? & [= <-] & ?).
  - split; [done|]. by intros (? & ? & ?).
Qed.

Lemma for_each_app {S A} (body : S → A → result S) s l1 l2 :
  for_each body s (l1 ++ l2) = (s' ← for_each body s l1; for_each body s' l2).
Proof.
  revert s. induction l1 as [|x l1 IH]; intros s; simpl; [done|].
  destruct (body s x); simpl; [apply IH|done].
Qed.

(** An invariant of the loop's state holds when the loop ends normally. *)
Lemma for_each_invariant {S A} (Inv : S → Prop) (body : S → A → result S) s l s' :
  (∀ s x s', x ∈ l → Inv s → body s x = Ok s' → Inv s') →
  Inv s → for_each body s l = Ok s' → Inv s'.
Proof.
  revert s. induction l as [|x l IH]; intros s Hstep Hs Hrun.
  - by injection Hrun as <-.
  - apply for_each_cons_Ok in Hrun as (s1 & Hx & Hl).
    apply (IH s1); [|by eapply Hstep; [left|..]|done].
    intros ? y ? Hy. apply Hstep. by right.
Qed.

(** A property the state has once an element is done, and keeps when other
    elements follow, holds when the loop ends normally. *)
Lemma for_each_member {S A} (P : S → Prop) (body : S → A → result S) l s0 s x :
  (∀ s1 s2, body s1 x = Ok s2 → P s2) →
  (∀ s1 s2 y, P s1 → body s1 y = Ok s2 → P s2) →
  x ∈ l → for_each body s0 l = Ok s → P s.
Proof.
  intros Hdone Hkeep. revert s0.
  induction l as [|y l IH]; intros s0 Hin Hrun; [by apply elem_of_nil in Hin|].
  apply for_each_cons_Ok in Hrun as (s1 & Hy & Hrun).
  apply elem_of_cons in Hin as [->|Hin]; [|by eapply IH].
  eapply (for_each_invariant P); [|by eapply Hdone|done].
  intros s2 z s3 _. apply Hkeep.
Qed.


(** ** The group classifier *)

Section grouper_facts.
Import DynamicGrouper.
Implicit Types (gs : groups) (r : row) (hostname : cell) (g : string).

Lemma append_lookup name hostname gs g :
  append name hostname gs !!! g
  = gs !!! g ++ (if decide (name = g) then [hostname] else []).
Proof.
  unfold append. destruct (decide (name = g)) as [->|Hne].
  - by rewrite lookup_total_insert_eq.
  - by rewrite lookup_total_insert_ne, app_nil_r.
Qed.

Lemma append_all_lookup names hostname gs g :
  append_all names hostname gs !!! g
  = gs !!! g ++ replicate (occurrences g names) hostname.
Proof.
  unfold append_all, occurrences. revert gs.
  induction names as [|name names IH]; intros gs; simpl.
  - by rewrite app_nil_r.
  - rewrite IH, append_lookup, filter_cons.
    destruct (decide (name = g)); simpl; [|by rewrite app_nil_r].
    by rewrite <- app_assoc.
Qed.

Lemma append_all_app names1 names2 hostname gs :
  append_all (names1 ++ names2) hostname gs
  = append_all names2 hostname (append_all names1 hostname gs).
Proof. apply foldl_app. Qed.

Lemma custom_rule_targets self r hostname gs :
  custom_rule self r hostname gs = append_all (custom_targets self r) hostname gs.
Proof.
  unfold custom_rule, custom_targets.
  destruct (group_by_custom (flags self) && truthy (r !! "vm_groups")); [|done].
  generalize (Text.split_comma (or_empty (default None (r !! "vm_groups")))).
  intros pieces. revert gs. unfold append_all.
  induction pieces as [|piece pieces IH]; intros gs; simpl; [done|].
  rewrite IH, filter_cons.
  destruct (String.eqb_spec (Text.strip piece) ""); simpl;
    destruct (decide (Text.strip piece ≠ "")); done.
Qed.

Lemma owner_rule_targets self r hostname gs :
  owner_rule self r hostname gs = append_all (owner_targets self r) hostname gs.
Proof.
  unfold owner_rule, owner_targets.
  by destruct (group_by_owner (flags self) && truthy (r !! "vm_owner")).
Qed.

Lemma state_rule_targets self r hostname gs :
  state_rule self r hostname gs
  = (states ← state_targets self r; Ok (append_all states hostname gs)).
Proof.
  unfold state_rule, state_targets.
  destruct (group_by_state (flags self) && truthy (r !! "vm_state")); [|done].
  by destruct (_normalize_state self _).
Qed.

Lemma default_rule_targets hostname gs :
  default_rule hostname gs
  = append_all (if in_vm_group hostname gs then [] else ["ungrouped"]) hostname gs.
Proof. unfold default_rule. by destruct (in_vm_group hostname gs). Qed.

Lemma in_vm_group_spec hostname gs :
  in_vm_group hostname gs = true ↔
  ∃ g, Text.startswith "vm_" g = true ∧ hostname ∈ gs !!! g.
Proof.
  unfold in_vm_group. rewrite existsb_exists. split.
  - intros ([g hosts] & Hin & [Hg Hh]%andb_true_iff). simpl in *.
    apply list_elem_of_In, elem_of_map_to_list in Hin.
    apply bool_decide_eq_true in Hh.
    exists g. split; [done|]. by rewrite (lookup_total_correct _ _ _ Hin).
  - intros (g & Hg & Hh). rewrite lookup_total_alt in Hh.
    destruct (gs !! g) as [hosts|] eqn:Hlook; simpl in Hh; [|by apply elem_of_nil in Hh].
    exists (g, hosts). split.
    + by apply list_elem_of_In, elem_of_map_to_list.
    + simpl. rewrite Hg. by apply bool_decide_eq_true.
Qed.

(** What one turn of the loop does to the groups: the host name is appended
    once per rule target, then to [ungrouped] unless a [vm_] group holds it. *)
Lemma group_row_Ok self gs r gs' :
  group_row self gs r = Ok gs' ↔
  ∃ hostname targets,
    r !! "vm_name" = Some hostname ∧ rule_targets self r = Ok targets ∧
    gs' = append_all
            (targets ++ if in_vm_group hostname (append_all targets hostname gs)
                        then [] else ["ungrouped"])
            hostname gs.
Proof.
  unfold group_row, getitem, rule_targets.
  destruct (r !! "vm_name") as [hostname|]; simpl;
    [|split; [done|by intros (? & ? & ? & _)]].
  rewrite state_rule_targets, owner_rule_targets, custom_rule_targets.
  destruct (state_targets self r) as [states|e]; simpl;
    [|split; [done|by intros (? & ? & _ & ? & _)]].
  rewrite default_rule_targets.
  split.
  - intros [= <-]. eexists _, _. split; [done|]. split; [done|].
    by rewrite !append_all_app.
  - intros (? & ? & [= <-] & [= <-] & ->). by rewrite !append_all_app.
Qed.

Lemma group_row_grows self gs r gs' g :
  group_row self gs r = Ok gs' → gs !!! g `prefix_of` gs' !!! g.
Proof.
  intros (hostname & targets & _ & _ & ->)%group_row_Ok.
  rewrite append_all_lookup. by apply prefix_app_r.
Qed.

Lemma generate_groups_grows self gs rows gs' g :
  for_each (group_row self) gs rows = Ok gs' → gs !!! g `prefix_of` gs' !!! g.
Proof.
  apply (for_each_invariant (λ gs', gs !!! g `prefix_of` gs' !!! g)); [|done].
  intros gs1 r gs2 _ Hpre Hrow. etrans; [done|]. by eapply group_row_grows.
Qed.

Lemma prefix_elem_of {A} (l k : list A) x : l `prefix_of` k → x ∈ l → x ∈ k.
Proof. intros [? ->] ?. apply elem_of_app. by left. Qed.

Lemma generate_groups_row (P : groups → Prop) self rows gs0 gs r :
  (∀ gs1 gs2, group_row self gs1 r = Ok gs2 → P gs2) →
  (∀ gs1 gs2 r', P gs1 → group_row self gs1 r' = Ok gs2 → P gs2) →
  r ∈ rows → for_each (group_row self) gs0 rows = Ok gs → P gs.
Proof. apply for_each_member. Qed.

End grouper_facts.

Section classifier_properties.
Import DynamicGrouper.
Implicit Types (gs : groups) (r : row) (hostname : cell) (g : string).

Lemma group_row_after_rules self gs r gs' hostname :
  group_row self gs r = Ok gs' → r !! "vm_name" = Some hostname →
  ∃ gs3, after_rules self r hostname gs = Ok gs3 ∧ gs' = default_rule hostname gs3.
Proof.
  unfold group_row, getitem, after_rules. intros Hrow Hname.
  rewrite Hname in Hrow. simpl in Hrow.
  destruct (state_rule _ _ _ _) as [gs3|]; [|done].
  injection Hrow as <-. eauto.
Qed.

Lemma default_rule_grows hostname gs g : gs !!! g `prefix_of` default_rule hostname gs !!! g.
Proof. rewrite default_rule_targets, append_all_lookup. by apply prefix_app_r. Qed.

Lemma default_rule_ungrouped hostname gs :
  (∀ g, Text.startswith "vm_" g = true → hostname ∉ gs !!! g) →
  hostname ∈ default_rule hostname gs !!! "ungrouped".
Proof.
  intros Hnone. unfold default_rule.
  destruct (in_vm_group hostname gs) eqn:Hin.
  - apply in_vm_group_spec in Hin as (g & Hg & Hh). by destruct (Hnone g Hg).
  - simpl. rewrite append_lookup, decide_True by done.
    apply elem_of_app. right. by left.
Qed.

Lemma custom_token_target self r s tok :
  group_by_custom (flags self) = true → r !! "vm_groups" = Some (Some s) →
  tok ∈ Text.split_comma s → Text.strip tok ≠ "" →
  Text.strip tok ∈ custom_targets self r.
Proof.
  intros Hflag Hcol Htok Hne. unfold custom_targets. rewrite Hflag, Hcol. simpl.
  destruct (String.eqb_spec s "") as [->|_]; simpl.
  - apply list_elem_of_singleton in Htok as ->. done.
  - apply list_elem_of_filter. split; [done|]. by apply list_elem_of_fmap_2.
Qed.

Lemma group_row_target self gs r gs' hostname targets g :
  group_row self gs r = Ok gs' → r !! "vm_name" = Some hostname →
  rule_targets self r = Ok targets → g ∈ targets → hostname ∈ gs' !!! g.
Proof.
  intros (hostname' & targets' & Hname & Htargets & ->)%group_row_Ok Hname' Htargets' Hg.
  assert (hostname' = hostname) as -> by congruence.
  assert (targets' = targets) as -> by congruence.
  rewrite append_all_lookup. apply elem_of_app. right.
  apply elem_of_replicate. split; [done|].
  unfold occurrences. rewrite filter_app, length_app.
  assert (g ∈ filter (λ name, name = g) targets) as Hin by by apply list_elem_of_filter.
  destruct (filter _ targets); [by apply elem_of_nil in Hin|simpl; lia].
Qed.

Lemma custom_token_member self rows gs r hostname s tok :
  generate_groups self rows = Ok gs →
  group_by_custom (flags self) = true →
  r ∈ rows → r !! "vm_name" = Some hostname →
  r !! "vm_groups" = Some (Some s) →
  tok ∈ Text.split_comma s → Text.strip tok ≠ "" →
  hostname ∈ gs !!! Text.strip tok.
Proof.
  intros Hrun Hflag Hin Hname Hcol Htok Hne.
  apply (generate_groups_row (λ gs, hostname ∈ gs !!! Text.strip tok)
           self rows ∅ gs r); [| |done..].
  - intros gs1 gs2 Hrow. apply group_row_Ok in Hrow as Hrow'.
    destruct Hrow' as (hostname' & targets & Hname' & Htargets & _).
    eapply group_row_target; [done..|].
    unfold rule_targets in Htargets.
    destruct (state_targets self r); [|done]. injection Htargets as <-.
    apply elem_of_app. left. by eapply custom_token_target.
  - intros gs1 gs2 r' Hh Hrow. eapply prefix_elem_of; [|done].
    by eapply group_row_grows.
Qed.

(** C1. Take any row of the row set, with the groups as they are when the
    rows before it are done. Once the custom-group, owner and state rules have
    run for the row, if no group whose name starts with [vm_] holds the row's
    host name, the classifier's result has the host in [ungrouped]; the same
    conclusion follows when no [vm_] group of the result holds the host. The
    groups the three rules put the host in keep it, so [ungrouped] comes in
    addition to them: with custom-group classification on, each trimmed
    non-empty token of the row's custom-group column names a group of the
    result that holds the host. *)
Theorem ungrouped_fallback self before r after gs hostname :
  generate_groups self (before ++ r :: after) = Ok gs →
  r !! "vm_name" = Some hostname →
  ∃ gs0 gs3,
    generate_groups self before = Ok gs0 ∧
    after_rules self r hostname gs0 = Ok gs3 ∧
    ((∀ g, Text.startswith "vm_" g = true → hostname ∉ gs3 !!! g) →
     hostname ∈ gs !!! "ungrouped") ∧
    ((∀ g, Text.startswith "vm_" g = true → hostname ∉ gs !!! g) →
     hostname ∈ gs !!! "ungrouped") ∧
    (∀ g, hostname ∈ gs3 !!! g → hostname ∈ gs !!! g) ∧
    (group_by_custom (flags self) = true →
     ∀ s tok, r !! "vm_groups" = Some (Some s) → tok ∈ Text.split_comma s →
              Text.strip tok ≠ "" → hostname ∈ gs !!! Text.strip tok).
Proof.
  unfold generate_groups. rewrite for_each_app. intros Hrun Hname.
  destruct (for_each (group_row self) ∅ before) as [gs0|] eqn:Hbefore; [|done].
  simpl in Hrun. apply for_each_cons_Ok in Hrun as (gs1 & Hrow & Hafter).
  destruct (group_row_after_rules _ _ _ _ _ Hrow Hname) as (gs3 & Hrules & ->).
  exists gs0, gs3. split; [done|]. split; [done|].
  assert (∀ g, gs3 !!! g `prefix_of` gs !!! g) as Hgrows.
  { intros g. etrans; [apply default_rule_grows|]. by eapply generate_groups_grows. }
  assert ((∀ g, Text.startswith "vm_" g = true → hostname ∉ gs3 !!! g) →
          hostname ∈ gs !!! "ungrouped") as Hstep.
  { intros Hnone. eapply prefix_elem_of; [by eapply generate_groups_grows|].
    by apply default_rule_ungrouped. }
  split; [done|]. split; [|split].
  - intros Hnone. apply Hstep. intros g Hg Hin.
    apply (Hnone g Hg). eapply prefix_elem_of; [apply Hgrows|done].
  - intros g. apply prefix_elem_of, Hgrows.
  - intros Hflag s tok Hcol Htok Hne.
    apply (custom_token_member self (before ++ r :: after) gs r hostname s tok);
      [|done| |done..].
    + unfold generate_groups. rewrite for_each_app, Hbefore. simpl. by rewrite Hrow.
    + apply elem_of_app. right. by left.
Qed.

Lemma ungrouped_fallback_witness :
  generate_groups all_rules ([] ++ web_row :: []) = Ok web_groups ∧
  web_row !! "vm_name" = Some (Some "vm1") ∧
  ∃ gs0 gs3,
    generate_groups all_rules [] = Ok gs0 ∧
    after_rules all_rules web_row (Some "vm1") gs0 = Ok gs3 ∧
    ((∀ g, Text.startswith "vm_" g = true → Some "vm1" ∉ gs3 !!! g) →
     Some "vm1" ∈ web_groups !!! "ungrouped") ∧
    ((∀ g, Text.startswith "vm_" g = true → Some "vm1" ∉ web_groups !!! g) →
     Some "vm1" ∈ web_groups !!! "ungrouped") ∧
    (∀ g, Some "vm1" ∈ gs3 !!! g → Some "vm1" ∈ web_groups !!! g) ∧
    (group_by_custom (flags all_rules) = true →
     ∀ s tok, web_row !! "vm_groups" = Some (Some s) → tok ∈ Text.split_comma s →
              Text.strip tok ≠ "" → Some "vm1" ∈ web_groups !!! Text.strip tok).
Proof.
  split; [reflexivity|]. split; [reflexivity|].
  apply (ungrouped_fallback all_rules [] web_row [] web_groups (Some "vm1")); reflexivity.
Defined.

(** C5. With custom-group classification on, a row with a non-empty
    custom-group column has its host in the group named by each trimmed
    non-empty token of the column split on commas. A host with the value
    [a,b] is in the groups [a] and [b]; there is no group [owner_a] and no
    group [a,b]. *)
Theorem custom_groups_by_token :
  (∀ self rows gs r hostname s tok,
     generate_groups self rows = Ok gs →
     group_by_custom (flags self) = true →
     r ∈ rows → r !! "vm_name" = Some hostname →
     r !! "vm_groups" = Some (Some s) → s ≠ "" →
     tok ∈ Text.split_comma s → Text.strip tok ≠ "" →
     hostname ∈ gs !!! Text.strip tok) ∧
  (∃ gs, generate_groups all_rules [ab_row] = Ok gs ∧
         gs !! "a" = Some [Some "vm1"] ∧ gs !! "b" = Some [Some "vm1"] ∧
         gs !! "owner_a" = None ∧ gs !! "a,b" = None).
Proof.
  split.
  - intros self rows gs r hostname s tok Hrun Hflag Hin Hname Hcol _ Htok Hne.
    by eapply custom_token_member.
  - eexists. split; [reflexivity|]. repeat split; reflexivity.
Qed.

Lemma custom_groups_by_token_witness :
  Some "vm1" ∈ web_groups !!! Text.strip " db".
Proof.
  apply (proj1 custom_groups_by_token all_rules [web_row] web_groups web_row
           (Some "vm1") "web, db" " db"); try reflexivity.
  - apply list_elem_of_singleton. reflexivity.
  - discriminate.
  - apply list_elem_of_In. simpl. tauto.
  - discriminate.
Defined.

(** *** Repeated hosts within a group *)

Lemma occurrences_NoDup g names : NoDup names → occurrences g names ≤ 1.
Proof.
  unfold occurrences. induction 1 as [|name names Hnotin _ IH]; simpl; [lia|].
  rewrite filter_cons. destruct (decide (name = g)) as [->|]; [|done].
  simpl. destruct (filter (λ name, name = g) names) as [|name' ?] eqn:Hf; simpl; [lia|].
  assert (name' ∈ filter (λ name, name = g) names) as Hin by (rewrite Hf; left).
  apply list_elem_of_filter in Hin as [-> Hin]. done.
Qed.

Lemma generate_groups_NoDup self rows gs0 gs :
  for_each (group_row self) gs0 rows = Ok gs →
  NoDup (hostnames rows) →
  (∀ r targets, r ∈ rows → rule_targets self r = Ok targets →
                NoDup ("ungrouped" :: targets)) →
  (∀ g, NoDup (gs0 !!! g)) →
  (∀ g hostname, hostname ∈ gs0 !!! g → Some hostname ∉ hostnames rows) →
  ∀ g, NoDup (gs !!! g).
Proof.
  revert gs0. induction rows as [|r rows IH]; intros gs0 Hrun Hnames Htargets Hnodup Hfresh.
  - by injection Hrun as <-.
  - apply for_each_cons_Ok in Hrun as (gs1 & Hrow & Hrun).
    apply group_row_Ok in Hrow as (hostname & targets & Hname & Hrule & ->).
    apply NoDup_cons in Hnames as [Hhead Hnames]. rewrite Hname in Hhead.
    set (fallback := if in_vm_group hostname (append_all targets hostname gs0)
                     then [] else ["ungrouped"]) in *.
    assert (NoDup (targets ++ fallback)) as Hall.
    { specialize (Htargets r targets (list_elem_of_here _ _) Hrule).
      apply NoDup_cons in Htargets as [Hu Ht]. unfold fallback.
      destruct (in_vm_group _ _); [by rewrite app_nil_r|].
      apply NoDup_app. split; [done|]. split; [|apply NoDup_singleton].
      intros name Hin ->%list_elem_of_singleton. done. }
    apply (IH _ Hrun Hnames).
    + intros r' targets' Hin. apply Htargets. by right.
    + intros g. rewrite append_all_lookup. apply NoDup_app.
      split; [done|]. split.
      * intros hostname' Hin ->%elem_of_replicate_inv.
        apply (Hfresh _ _ Hin). rewrite <- Hname. left.
      * pose proof (occurrences_NoDup g _ Hall).
        destruct (occurrences g (targets ++ fallback)) as [|[|?]]; simpl;
          [constructor|apply NoDup_singleton|lia].
    + intros g hostname'. rewrite append_all_lookup.
      intros [Hin| ->%elem_of_replicate_inv]%elem_of_app; [|done].
      intros Hin'. apply (Hfresh _ _ Hin). by right.
Qed.

(** C3, as stated, fails: the classifier appends without looking, so a row
    whose custom-group column is [a,a] puts its host twice in the list of
    group [a]. *)
Lemma group_lists_repeat_hosts :
  ¬ (∀ self rows gs g, generate_groups self rows = Ok gs → NoDup (gs !!! g)).
Proof.
  intros Hclaim.
  assert (generate_groups all_rules [aa_row]
          = Ok (list_to_map [("a", [Some "vm1"; Some "vm1"]);
                             ("state_poweredon", [Some "vm1"]);
                             ("ungrouped", [Some "vm1"])])) as Hrun by reflexivity.
  specialize (Hclaim _ _ _ "a" Hrun).
  apply NoDup_cons in Hclaim as [Hnotin _]. apply Hnotin. left.
Qed.

(** C3, amended. When the rows have pairwise-distinct host names and, in each
    row, the group names the custom-group, owner and state rules produce are
    pairwise distinct and none of them is [ungrouped], no host name occurs
    more than once in the host list of a group. *)
Theorem group_lists_distinct_hosts self rows gs :
  generate_groups self rows = Ok gs →
  NoDup (hostnames rows) →
  (∀ r targets, r ∈ rows → rule_targets self r = Ok targets →
                NoDup ("ungrouped" :: targets)) →
  ∀ g, NoDup (gs !!! g).
Proof.
  intros Hrun Hnames Htargets.
  apply (generate_groups_NoDup self rows ∅ gs); [done..| |].
  - intros g. rewrite lookup_total_empty. constructor.
  - intros g hostname. rewrite lookup_total_empty. by intros ?%elem_of_nil.
Qed.

Lemma group_lists_distinct_hosts_witness :
  NoDup (web_groups !!! "web") ∧ NoDup (web_groups !!! "ungrouped").
Proof.
  assert (∀ g, NoDup (web_groups !!! g)) as Hall; [|by split].
  apply (group_lists_distinct_hosts all_rules [web_row] web_groups).
  - reflexivity.
  - apply NoDup_singleton.
  - intros r targets ->%list_elem_of_singleton [= <-].
    apply (bool_decide_unpack _). reflexivity.
Defined.

End classifier_properties.

(** ** The inventory assembler *)

Section builder_facts.
Import AnsibleInventoryBuilder.
Implicit Types (r : row) (hostname : cell) (u : string).

Lemma uuid_key_Some r u :
  uuid_key r = Some u ↔
  r !! "vm_uuid" = Some (Some u) ∧ u ≠ "" ∧ Text.lower u ≠ "none".
Proof.
  unfold uuid_key.
  destruct (r !! "vm_uuid") as [[u'|]|]; simpl.
  - destruct (String.eqb_spec (Text.lower u') "none"); simpl.
    + split; [done|]. by intros ([= ->] & _ & ?).
    + destruct (String.eqb_spec u' ""); simpl.
      * split; [done|]. by intros ([= ->] & ? & _).
      * split; [by intros [= ->]|]. by intros ([= ->] & _).
  - split; [done|]. by intros ([=] & _).
  - split; [done|]. by intros ([=] & _).
Qed.

Lemma build_row_index self st r st' :
  build_row self st r = Ok st' →
  ∃ hostname, r !! "vm_name" = Some hostname ∧
    st'.2 = match uuid_key r with
            | Some u => <[u := hostname]> st.2
            | None => st.2
            end.
Proof.
  unfold build_row, getitem, uuid_key.
  destruct (r !! "vm_name") as [hostname|]; simpl; [|done].
  destruct (match r !! "vm_state" with Some _ => _ | None => _ end); simpl; [|done].
  intros [= <-]. exists hostname. split; [done|]. simpl.
  by destruct (truthy_cell _).
Qed.

Lemma build_Ok self rows inv :
  build self rows = Ok inv ↔
  ∃ hostvars index gs inv1,
    for_each (build_row self) (∅, ∅) rows = Ok (hostvars, index) ∧
    DynamicGrouper.generate_groups (grouper self) rows = Ok gs ∧
    for_each (λ (inv : inventory) group,
                hosts ← sorted_cells (gs !!! group); Ok (<[group := Hosts hosts]> inv))
             {[ "_meta" := Meta hostvars ]} (Text.sorted (elements (dom gs))) = Ok inv1 ∧
    inv = <["all" := All (Text.sorted (elements (dom gs))) index]> inv1.
Proof.
  unfold build.
  destruct (for_each (build_row self) _ rows) as [[hostvars index]|]; simpl;
    [|split; [done|by intros (? & ? & ? & ? & ? & _)]].
  destruct (DynamicGrouper.generate_groups _ rows) as [gs|]; simpl;
    [|split; [done|by intros (? & ? & ? & ? & _ & ? & _)]].
  destruct (for_each _ {[ "_meta" := Meta hostvars ]} _) as [inv1|] eqn:Hinv; simpl.
  - split.
    + intros [= <-]. by eexists _, _, _, _.
    + intros (? & ? & ? & ? & [= <- <-] & [= <-] & Hinv' & ->).
      rewrite Hinv in Hinv'. by injection Hinv' as <-.
  - split; [done|].
    intros (? & ? & ? & ? & [= <- <-] & [= <-] & Hinv' & _). by rewrite Hinv in Hinv'.
Qed.

(** The index after the rows: a row indexed under [u] that no later row
    re-indexes decides the entry; a key no row is indexed under has none. *)
Lemma build_rows_index_last self before r after st st' u hostname :
  for_each (build_row self) st (before ++ r :: after) = Ok st' →
  uuid_key r = Some u → r !! "vm_name" = Some hostname →
  (∀ r', r' ∈ after → uuid_key r' ≠ Some u) →
  st'.2 !! u = Some hostname.
Proof.
  rewrite for_each_app. intros Hrun Hkey Hname Hafter.
  destruct (for_each (build_row self) st before) as [st0|]; [|done]. simpl in Hrun.
  apply for_each_cons_Ok in Hrun as (st1 & Hrow & Hrun).
  revert Hrun. apply (for_each_invariant (λ st, st.2 !! u = Some hostname)).
  - intros st2 r' st3 Hin Hinv (hostname' & _ & ->)%build_row_index.
    specialize (Hafter r' Hin).
    destruct (uuid_key r') as [u'|]; [|done].
    rewrite lookup_insert_ne; [done|congruence].
  - apply build_row_index in Hrow as (hostname' & Hname' & ->).
    rewrite Hkey, lookup_insert_eq. congruence.
Qed.

Lemma build_rows_index_origin self rows st' u :
  for_each (build_row self) (∅, ∅) rows = Ok st' →
  is_Some (st'.2 !! u) → ∃ r, r ∈ rows ∧ uuid_key r = Some u.
Proof.
  apply (for_each_invariant
           (λ st, is_Some (st.2 !! u) → ∃ r, r ∈ rows ∧ uuid_key r = Some u)).
  - intros st r st2 Hin Hinv (hostname & _ & ->)%build_row_index.
    destruct (uuid_key r) as [u'|] eqn:Hkey; [|done].
    destruct (decide (u' = u)) as [->|]; [by eauto|].
    by rewrite lookup_insert_ne.
  - simpl. rewrite lookup_empty. by intros [? ?].
Qed.

(** C6, as stated, fails: a row whose UUID column is there and empty is not
    the text [none], yet [if vm_uuid:] keeps it out of the index. *)
Lemma uuid_index_skips_empty :
  ¬ (∀ self rows inv children index before r after u hostname,
       build self rows = Ok inv → inv !! "all" = Some (All children index) →
       rows = before ++ r :: after →
       r !! "vm_name" = Some hostname → r !! "vm_uuid" = Some (Some u) →
       Text.lower u ≠ "none" →
       (∀ r', r' ∈ after → r' !! "vm_uuid" ≠ Some (Some u)) →
       index !! u = Some hostname).
Proof.
  intros Hclaim.
  set (r := row_of [("vm_name", "vm1"); ("vm_state", "on"); ("vm_ip_addr", "10.0.0.1");
                    ("vm_uuid", "")]).
  assert (∃ inv children index,
            build all_rules_builder [r] = Ok inv ∧
            inv !! "all" = Some (All children index) ∧ index !! "" = None)
    as (inv & children & index & Hbuild & Hall & Hnone).
  { eexists _, _, _. split; [reflexivity|]. split; reflexivity. }
  rewrite (Hclaim all_rules_builder [r] inv children index [] r [] "" (Some "vm1")
             Hbuild Hall eq_refl eq_refl eq_refl) in Hnone.
  - discriminate Hnone.
  - discriminate.
  - intros r' Hin%elem_of_nil. destruct Hin.
Qed.

(** C6, amended. The UUID index maps identifier to host name for every row
    whose UUID column is present, not empty and not the text [none] in any
    letter case; among the rows with one identifier the last decides. A
    row whose UUID text is [none] in any letter case contributes no entry, and
    every entry comes from a row with that identifier. The UUID [123] on host
    [vm1], followed by the texts [None] and [nOnE] and by [123] again on host
    [vm4], gives the index [123] to [vm4] alone; without the last row
    [uuid_index["123"]] is [vm1]. *)
Theorem uuid_index_entries :
  (∀ self rows inv,
     build self rows = Ok inv →
     ∃ children index,
       inv !! "all" = Some (All children index) ∧
       (∀ before r after u hostname,
          rows = before ++ r :: after →
          r !! "vm_name" = Some hostname → r !! "vm_uuid" = Some (Some u) →
          u ≠ "" → Text.lower u ≠ "none" →
          (∀ r', r' ∈ after → r' !! "vm_uuid" ≠ Some (Some u)) →
          index !! u = Some hostname) ∧
       (∀ u, Text.lower u = "none" → index !! u = None) ∧
       (∀ u, is_Some (index !! u) → ∃ r, r ∈ rows ∧ r !! "vm_uuid" = Some (Some u))) ∧
  (∃ inv children,
     build all_rules_builder uuid_rows = Ok inv ∧
     inv !! "all" = Some (All children {[ "123" := Some "vm4" ]})) ∧
  (∃ inv children,
     build all_rules_builder (take 3 uuid_rows) = Ok inv ∧
     inv !! "all" = Some (All children {[ "123" := Some "vm1" ]})).
Proof.
  split; [|split; eexists _, _; split; reflexivity].
  intros self rows inv (hostvars & index & gs & inv1 & Hrows & _ & _ & ->)%build_Ok.
  eexists _, index. split; [by rewrite lookup_insert_eq|]. split; [|split].
  - intros before r after u hostname -> Hname Hcol Hne Hnone Hafter.
    apply (build_rows_index_last _ _ _ _ _ _ _ _ Hrows); [|done|].
    + by apply uuid_key_Some.
    + intros r' Hin [Hcol' _]%uuid_key_Some. by apply (Hafter r').
  - intros u Hnone. apply eq_None_not_Some. intros His.
    destruct (build_rows_index_origin _ _ _ _ Hrows His) as (r & _ & Hkey).
    apply uuid_key_Some in Hkey as (_ & _ & Hlower). done.
  - intros u His.
    destruct (build_rows_index_origin _ _ _ _ Hrows His) as (r & Hin & Hkey).
    apply uuid_key_Some in Hkey as (Hcol & _). eauto.
Qed.

Lemma uuid_index_entries_witness :
  ∃ inv, build all_rules_builder uuid_rows = Ok inv ∧
  ∃ children index,
    inv !! "all" = Some (All children index) ∧
    index !! "123" = Some (Some "vm4") ∧ index !! "None" = None.
Proof.
  destruct (is_Ok_inv (build all_rules_builder uuid_rows) eq_refl) as [inv Hbuild].
  exists inv. split; [exact Hbuild|].
  destruct (proj1 uuid_index_entries all_rules_builder uuid_rows inv Hbuild)
    as (children & index & Hall & Hlast & Hnone & _).
  exists children, index. split; [exact Hall|]. split.
  - eapply (Hlast (take 3 uuid_rows) _ [] "123" (Some "vm4"));
      [reflexivity..|discriminate|discriminate|].
    intros r' Hin%elem_of_nil. destruct Hin.
  - apply Hnone. reflexivity.
Defined.

End builder_facts.

(** ** The order on strings *)

Section order_facts.

Lemma ascii_compare_Lt x y :
  Ascii.compare x y = Lt ↔ (N_of_ascii x < N_of_ascii y)%N.
Proof. unfold Ascii.compare. apply N.compare_lt_iff. Qed.

Lemma string_compare_Lt_trans a b c :
  String.compare a b = Lt → String.compare b c = Lt → String.compare a c = Lt.
Proof.
  revert b c. induction a as [|x a IH]; intros [|y b] [|z c]; simpl; try done.
  destruct (Ascii.compare x y) eqn:Hxy; [|clear IH|done].
  - apply Ascii.compare_eq_iff in Hxy as ->.
    destruct (Ascii.compare y z); [apply IH|done..].
  - intros _. destruct (Ascii.compare y z) eqn:Hyz; [| |done].
    + apply Ascii.compare_eq_iff in Hyz as <-. by rewrite Hxy.
    + intros _. apply ascii_compare_Lt in Hxy, Hyz.
      assert (Ascii.compare x z = Lt) as ->; [|done].
      apply ascii_compare_Lt. by etrans.
Qed.

#[global] Instance text_le_total : Total Text.le.
Proof. intros a b. apply String.leb_total. Qed.

#[global] Instance text_le_trans : Transitive Text.le.
Proof.
  intros a b c. unfold Text.le, String.leb.
  destruct (String.compare a b) eqn:Hab; [|intros _|done].
  - by apply String.compare_eq_iff in Hab as ->.
  - destruct (String.compare b c) eqn:Hbc; [|intros _|done].
    + apply String.compare_eq_iff in Hbc as <-. by rewrite Hab.
    + by rewrite (string_compare_Lt_trans a b c).
Qed.

Lemma sorted_elem_of l x : x ∈ Text.sorted l ↔ x ∈ l.
Proof. unfold Text.sorted. by rewrite merge_sort_Permutation. Qed.

Lemma sorted_NoDup l : NoDup l → NoDup (Text.sorted l).
Proof. unfold Text.sorted. by rewrite merge_sort_Permutation. Qed.

Lemma sorted_Sorted l : StronglySorted Text.le (Text.sorted l).
Proof. apply StronglySorted_merge_sort; apply _. Qed.

End order_facts.

(** ** The CSV loader *)

Section reader_facts.
Import CSVReader.

Lemma od_set_keys k v d k' : k' ∈ (od_set k v d).*1 ↔ k' = k ∨ k' ∈ d.*1.
Proof.
  induction d as [|[k0 v0] d IH]; simpl.
  - rewrite list_elem_of_singleton, elem_of_nil. tauto.
  - destruct (decide (k0 = k)) as [->|Hne]; simpl.
    + rewrite !elem_of_cons. tauto.
    + rewrite !elem_of_cons, IH. tauto.
Qed.

Lemma zipped_keys (pairs : list (string * string)) d k :
  k ∈ d.*1 ∨ k ∈ pairs.*1 →
  k ∈ (foldl (λ d kv, od_set kv.1 (Some kv.2) d) d pairs).*1.
Proof.
  revert d. induction pairs as [|[k0 v0] pairs IH]; intros d; simpl.
  - intros [?|?%elem_of_nil]; done.
  - intros Hk. apply IH. rewrite od_set_keys, elem_of_cons in *. tauto.
Qed.

Lemma padded_keys (rest : list string) d k :
  k ∈ d.*1 ∨ k ∈ rest →
  k ∈ (foldl (λ d k, od_set k None d) d rest).*1.
Proof.
  revert d. induction rest as [|k0 rest IH]; intros d; simpl.
  - intros [?|?%elem_of_nil]; done.
  - intros Hk. apply IH. rewrite od_set_keys, elem_of_cons in *. tauto.
Qed.

(** Every field name is a key of the dict [DictReader] yields for a line
    that is not too long. *)
Lemma dict_row_keys names record name :
  restkey (dict_row names record) = None → name ∈ names →
  name ∈ (named (dict_row names record)).*1.
Proof.
  unfold dict_row. destruct (decide (length names < length record)); [done|].
  simpl. intros _ [i Hi]%list_elem_of_lookup.
  apply padded_keys. destruct (record !! i) as [v|] eqn:Hv.
  - left. apply zipped_keys. right.
    apply list_elem_of_fmap. exists (name, v). split; [done|].
    apply list_elem_of_lookup. exists i. apply lookup_zip_with_Some. eauto.
  - right. apply lookup_ge_None in Hv.
    apply list_elem_of_lookup. exists (i - length record).
    rewrite lookup_drop. by replace (length record + (i - length record)) with i by lia.
Qed.

Lemma strip_row_keys raw r name :
  strip_row raw = Ok r → name ∈ (named raw).*1 → is_Some (r !! Text.strip name).
Proof.
  unfold strip_row. destruct (restkey raw); [done|]. intros [= <-].
  assert (∀ (acc : row) kvs,
            is_Some (acc !! Text.strip name) ∨ name ∈ kvs.*1 →
            is_Some (foldl (λ (acc : row) kv, <[Text.strip kv.1 := Text.strip <$> kv.2]> acc)
                           acc kvs !! Text.strip name)) as Hfold.
  { intros acc kvs. revert acc. induction kvs as [|[k v] kvs IH]; intros acc; simpl.
    - intros [?|?%elem_of_nil]; done.
    - intros Hk. apply IH. rewrite elem_of_cons in Hk.
      destruct (decide (Text.strip k = Text.strip name)) as [->|Hne].
      + left. by rewrite lookup_insert_eq.
      + rewrite lookup_insert_ne by done. destruct Hk as [?|[->|?]]; tauto. }
  intros Hin. apply Hfold. by right.
Qed.

(** The rows [read] returns were kept for their host name and have every
    required column. *)
Lemma read_rows w required path rows warnings :
  read w required path = Ok (rows, warnings) →
  ∀ r, r ∈ rows →
    truthy (r !! "vm_name") = true ∧ ∀ column, column ∈ required → is_Some (r !! column).
Proof.
  unfold read. destruct (fs w path) as [f|]; [|done].
  set (names := default [] (fieldnames f)).
  destruct (Text.strip <$> names) as [|header headers] eqn:Hheaders; [done|].
  rewrite <- Hheaders. destruct (decide (_ = ∅)) as [Hmissing|]; [|done].
  destruct (for_each _ [] _) as [rows'|] eqn:Hloop; simpl; [|done].
  destruct (_validate_uniqueness rows'); simpl; [|done]. intros [= <- <-].
  apply Forall_forall. revert Hloop.
  apply (for_each_invariant (Forall (λ r : row, _))); [|constructor].
  intros kept record kept' _ Hkept Hbody.
  destruct (strip_row (dict_row names record)) as [r|] eqn:Hrow; simpl in Hbody; [|done].
  injection Hbody as <-.
  destruct (truthy (r !! "vm_name")) eqn:Hname; [|done].
  apply Forall_app. split; [done|]. apply Forall_singleton. split; [done|].
  intros column Hcolumn.
  assert (column ∈ Text.strip <$> names) as (name & -> & Hin)%list_elem_of_fmap.
  { apply (elem_of_list_to_set (C := gset string)).
    destruct (decide (column ∈ (list_to_set (Text.strip <$> names) : gset string)));
      [done|].
    assert (column ∈ required ∖ list_to_set (Text.strip <$> names)) as Hin
      by by apply elem_of_difference.
    rewrite Hmissing in Hin. by apply not_elem_of_empty in Hin. }
  apply (strip_row_keys _ _ _ Hrow), dict_row_keys; [|done].
  unfold strip_row in Hrow. by destruct (restkey (dict_row names record)).
Qed.

End reader_facts.

(** ** The orchestrator *)

Section application_facts.
Import Application.

Lemma reader_required : reader = required_cols.
Proof. reflexivity. Qed.

(** The configuration loads exactly when [_load_state_map] returns; the
    object then holds the positional path and the state map. *)
Lemma config_Ok w a cfg :
  config w a = Ok cfg ↔
  ∃ sm, EnvConfig._load_state_map w = Ok sm ∧ cfg = EnvConfig.Make (arg_csv a) sm.
Proof.
  unfold config, EnvConfig.init.
  destruct (EnvConfig._load_state_map w) as [sm|e]; simpl.
  - split; [intros [= <-]; by eexists|]. by intros (? & [= <-] & ->).
  - split; [done|]. by intros (? & ? & _).
Qed.

Lemma load_state_map_unset w :
  environ w !! "INV_STATE_MAP" = None → EnvConfig._load_state_map w = Ok builtin.
Proof. unfold EnvConfig._load_state_map, EnvConfig.getenv. by intros ->. Qed.

Lemma run_config_Raise w a e : config w a = Raise e → run w (Parsed a) = handler [] e.
Proof. unfold run, pipeline. by intros ->. Qed.

Lemma run_read_Raise w a cfg e :
  config w a = Ok cfg →
  CSVReader.read w reader (csv_path w cfg) = Raise e → run w (Parsed a) = handler [] e.
Proof. unfold run, pipeline. by intros -> ->. Qed.

Lemma run_build_Raise w a cfg rows warnings e :
  config w a = Ok cfg →
  CSVReader.read w reader (csv_path w cfg) = Ok (rows, warnings) →
  AnsibleInventoryBuilder.build (builder w cfg) rows = Raise e →
  run w (Parsed a) = handler warnings e.
Proof. unfold run, pipeline. by intros -> -> ->. Qed.

Lemma run_built w a cfg rows warnings inv :
  config w a = Ok cfg →
  CSVReader.read w reader (csv_path w cfg) = Ok (rows, warnings) →
  AnsibleInventoryBuilder.build (builder w cfg) rows = Ok inv →
  run w (Parsed a)
  = match print_raises w (output a inv) with
    | Some e => handler warnings e
    | None => Outcome [output a inv] warnings 0
    end.
Proof. unfold run, pipeline. by intros -> -> ->. Qed.

Lemma handler_stdout warnings e : stdout (handler warnings e) = [].
Proof. by destruct e. Qed.

Lemma handler_exit_code warnings e : exit_code (handler warnings e) ≠ 0%Z.
Proof. by destruct e. Qed.

Lemma read_no_header w path f required :
  fs w path = Some f → Text.strip <$> default [] (fieldnames f) = [] →
  CSVReader.read w required path = Raise (ValueError "Empty CSV or missing header").
Proof. unfold CSVReader.read. by intros -> ->. Qed.

Lemma read_missing w path f required :
  fs w path = Some f → Text.strip <$> default [] (fieldnames f) ≠ [] →
  required ∖ list_to_set (Text.strip <$> default [] (fieldnames f)) ≠ ∅ →
  CSVReader.read w required path
  = Raise (ValueError
             ("Missing required columns: "
              +:+ Text.join ", "
                    (Text.sorted
                       (elements (required ∖ list_to_set
                                    (Text.strip <$> default [] (fieldnames f))))))).
Proof.
  unfold CSVReader.read. intros -> Hheaders Hmissing.
  destruct (Text.strip <$> default [] (fieldnames f)) as [|header headers]; [done|].
  by rewrite decide_False.
Qed.

(** C7, as stated, fails: for a CSV without a header line the message is
    the fixed text [Empty CSV or missing header], which names no column. *)
Lemma empty_csv_message_names_no_column :
  ¬ (∀ w a cfg f,
       config w a = Ok cfg →
       fs w (csv_path w cfg) = Some f →
       let headers := Text.strip <$> default [] (fieldnames f) in
       headers = [] ∨ (∃ c, c ∈ required_cols ∧ c ∉ headers) →
       run w (Parsed a)
       = Outcome [] [Error ("Missing required columns: "
                            +:+ Text.join ", "
                                  (Text.sorted
                                     (elements (required_cols ∖ list_to_set headers))))] 2).
Proof.
  intros Hclaim.
  specialize (Hclaim (sample_world ∅ (CsvFile None [])) (Args false None None)
                (EnvConfig.Make None builtin) (CsvFile None [])
                eq_refl eq_refl (or_introl eq_refl)).
  discriminate Hclaim.
Qed.

(** C7, amended. Let the configuration load. When the CSV has no header
    line the program writes no JSON, writes the line
    [ERROR: Empty CSV or missing header] and exits with code 2. When it has a
    header that lacks a required column ([vm_name], [vm_state], [vm_ip_addr],
    trimmed), the program writes no JSON, exits with code 2 and the error line
    names exactly the missing columns, sorted and joined by a comma and a
    space. *)
Theorem invalid_format_exits_2 w a cfg f :
  config w a = Ok cfg →
  fs w (csv_path w cfg) = Some f →
  let headers := Text.strip <$> default [] (fieldnames f) in
  (headers = [] → run w (Parsed a) = Outcome [] [Error "Empty CSV or missing header"] 2) ∧
  (headers ≠ [] → (∃ c, c ∈ required_cols ∧ c ∉ headers) →
   ∃ missing,
     run w (Parsed a)
     = Outcome [] [Error ("Missing required columns: " +:+ Text.join ", " missing)] 2 ∧
     StronglySorted Text.le missing ∧ NoDup missing ∧
     ∀ c, c ∈ missing ↔ c ∈ required_cols ∧ c ∉ headers).
Proof.
  intros Hcfg Hfs headers. split.
  - intros Hnone. by rewrite (run_read_Raise _ _ _ _ Hcfg (read_no_header _ _ _ _ Hfs Hnone)).
  - intros Hsome (c & Hreq & Hnotin).
    exists (Text.sorted (elements (required_cols ∖ list_to_set headers))).
    split; [|split; [apply sorted_Sorted|split]].
    + assert (required_cols ∖ list_to_set headers ≠ ∅) as Hmissing.
      { intros Hempty. assert (c ∈ required_cols ∖ list_to_set headers) as Hin.
        { apply elem_of_difference. split; [done|]. by rewrite elem_of_list_to_set. }
        rewrite Hempty in Hin. by apply not_elem_of_empty in Hin. }
      pose proof (read_missing w _ f required_cols Hfs Hsome Hmissing) as Hread.
      rewrite <- reader_required in Hread at 1.
      by rewrite (run_read_Raise _ _ _ _ Hcfg Hread).
    + apply sorted_NoDup, NoDup_elements.
    + intros c'. rewrite sorted_elem_of, elem_of_elements, elem_of_difference.
      by rewrite elem_of_list_to_set.
Qed.

Lemma invalid_format_exits_2_witness :
  ∃ missing,
    run (sample_world ∅ name_only_csv) (Parsed (Args false None None))
    = Outcome [] [Error ("Missing required columns: " +:+ Text.join ", " missing)] 2 ∧
    StronglySorted Text.le missing ∧ NoDup missing ∧
    ∀ c, c ∈ missing ↔ c ∈ required_cols ∧ c ∉ Text.strip <$> ["vm_name"; " owner "].
Proof.
  pose proof (invalid_format_exits_2 (sample_world ∅ name_only_csv) (Args false None None)
                (EnvConfig.Make None builtin) name_only_csv eq_refl eq_refl) as [_ Hmissing].
  apply Hmissing.
  - discriminate.
  - exists "vm_state". split; [reflexivity|]. apply (bool_decide_unpack _). reflexivity.
Defined.

(** *** The two output modes *)

(** What [run] does once the inventory is there depends on [--host] alone;
    what comes before does not depend on it. *)
Lemma run_list_mode w a inv warnings :
  run w (Parsed (with_host a None)) = Outcome [PrintedInventory inv] warnings 0 ↔
  ∃ cfg rows, config w a = Ok cfg ∧
              CSVReader.read w reader (csv_path w cfg) = Ok (rows, warnings) ∧
              AnsibleInventoryBuilder.build (builder w cfg) rows = Ok inv ∧
              print_raises w (PrintedInventory inv) = None.
Proof.
  split.
  - unfold run, pipeline. change (config w (with_host a None)) with (config w a).
    destruct (config w a) as [cfg|e]; [|by destruct e].
    destruct (CSVReader.read w reader (csv_path w cfg)) as [[rows warnings']|e] eqn:Hread;
      [|by destruct e].
    destruct (AnsibleInventoryBuilder.build (builder w cfg) rows) as [inv'|e] eqn:Hbuild;
      [|by destruct e].
    change (output (with_host a None) inv') with (PrintedInventory inv').
    destruct (print_raises w (PrintedInventory inv')) as [e|] eqn:Hprint; [by destruct e|].
    intros [= <- <-]. by exists cfg, rows.
  - intros (cfg & rows & Hcfg & Hread & Hbuild & Hprint).
    rewrite (run_built w (with_host a None) cfg rows warnings inv Hcfg Hread Hbuild).
    change (output (with_host a None) inv) with (PrintedInventory inv).
    by rewrite Hprint.
Qed.

Lemma run_host_mode w a cfg hostname rows warnings inv :
  hostname ≠ "" →
  config w a = Ok cfg →
  CSVReader.read w reader (csv_path w cfg) = Ok (rows, warnings) →
  AnsibleInventoryBuilder.build (builder w cfg) rows = Ok inv →
  print_raises w (InventoryOutput.print_host inv hostname) = None →
  run w (Parsed (with_host a (Some hostname)))
  = Outcome [InventoryOutput.print_host inv hostname] warnings 0.
Proof.
  intros Hne Hcfg Hread Hbuild Hprint.
  rewrite (run_built w (with_host a (Some hostname)) cfg rows warnings inv Hcfg Hread Hbuild).
  unfold output. simpl.
  destruct (String.eqb_spec hostname ""); [done|]. simpl. by rewrite Hprint.
Qed.

Lemma run_host_empty w a :
  run w (Parsed (with_host a (Some ""))) = run w (Parsed (with_host a None)).
Proof. reflexivity. Qed.

Lemma listed_inv o :
  listed o = true → ∃ inv warnings, o = Outcome [PrintedInventory inv] warnings 0.
Proof. destruct o as [[|[inv| |] [|]] warnings [| |]]; try done. eauto. Qed.

(** The lookups of [print_host], on the document as [build] leaves it. *)
Lemma print_host_Meta inv hostvars hostname :
  inv !! "_meta" = Some (Meta hostvars) →
  InventoryOutput.print_host inv hostname
  = PrintedHostvar (default ∅ (hostvars !! Some hostname)).
Proof. unfold InventoryOutput.print_host, InventoryOutput.meta_hostvars. by intros ->. Qed.

Lemma print_host_Hosts inv hosts hostname :
  inv !! "_meta" = Some (Hosts hosts) →
  InventoryOutput.print_host inv hostname = PrintedHostvar ∅.
Proof. unfold InventoryOutput.print_host, InventoryOutput.meta_hostvars. by intros ->. Qed.

(** C8, as stated, fails for the host name [--host ""]: it is not a key of
    [_meta.hostvars], yet the program prints the whole inventory, not an
    empty object. *)
Lemma empty_host_name_prints_inventory :
  ¬ (∀ w a hostname cfg rows warnings inv hostvars,
       config w a = Ok cfg →
       CSVReader.read w reader (csv_path w cfg) = Ok (rows, warnings) →
       AnsibleInventoryBuilder.build (builder w cfg) rows = Ok inv →
       inv !! "_meta" = Some (Meta hostvars) →
       hostvars !! Some hostname = None →
       run w (Parsed (with_host a (Some hostname))) = Outcome [PrintedHostvar ∅] warnings 0).
Proof.
  intros Hclaim.
  assert (∃ rows inv hostvars,
            CSVReader.read (sample_world ∅ sample_csv) reader
              (csv_path (sample_world ∅ sample_csv) (EnvConfig.Make None builtin))
            = Ok (rows, []) ∧
            AnsibleInventoryBuilder.build
              (builder (sample_world ∅ sample_csv) (EnvConfig.Make None builtin)) rows
            = Ok inv ∧
            inv !! "_meta" = Some (Meta hostvars) ∧ hostvars !! Some "" = None)
    as (rows & inv & hostvars & Hread & Hbuild & Hmeta & Hunknown).
  { do 3 eexists. split; [reflexivity|]. split; [reflexivity|]. split; reflexivity. }
  specialize (Hclaim (sample_world ∅ sample_csv) (Args false None None) ""
                (EnvConfig.Make None builtin) rows [] inv hostvars
                eq_refl Hread Hbuild Hmeta Hunknown).
  assert (listed (run (sample_world ∅ sample_csv)
                    (Parsed (with_host (Args false None None) None))) = true)
    as (inv' & warnings' & Hrun)%listed_inv by reflexivity.
  rewrite run_host_empty, Hrun in Hclaim. discriminate Hclaim.
Qed.

(** C8, amended. Let [--host] name a host by a non-empty name, let the
    inventory be assembled and let [sys.stdout] take what is printed. When the
    document has [_meta.hostvars] and the name is a key of it, the program
    prints exactly the entry under that name and exits with code 0. When the
    name is not a key of [_meta.hostvars], or the document has no
    [_meta.hostvars] because a group named [_meta] took its place, the program
    prints an empty object, again with exit code 0 and no error line. *)
Theorem host_mode_prints_hostvar w a hostname cfg rows warnings inv :
  hostname ≠ "" →
  config w a = Ok cfg →
  CSVReader.read w reader (csv_path w cfg) = Ok (rows, warnings) →
  AnsibleInventoryBuilder.build (builder w cfg) rows = Ok inv →
  (∀ hostvars vars,
     inv !! "_meta" = Some (Meta hostvars) → hostvars !! Some hostname = Some vars →
     print_raises w (PrintedHostvar vars) = None →
     run w (Parsed (with_host a (Some hostname))) = Outcome [PrintedHostvar vars] warnings 0) ∧
  (∀ hostvars,
     inv !! "_meta" = Some (Meta hostvars) → hostvars !! Some hostname = None →
     print_raises w (PrintedHostvar ∅) = None →
     run w (Parsed (with_host a (Some hostname))) = Outcome [PrintedHostvar ∅] warnings 0) ∧
  (∀ hosts,
     inv !! "_meta" = Some (Hosts hosts) →
     print_raises w (PrintedHostvar ∅) = None →
     run w (Parsed (with_host a (Some hostname))) = Outcome [PrintedHostvar ∅] warnings 0).
Proof.
  intros Hne Hcfg Hread Hbuild.
  pose proof (run_host_mode w a cfg hostname rows warnings inv Hne Hcfg Hread Hbuild) as Hrun.
  split; [|split].
  - intros hostvars vars Hmeta Hknown Hprint.
    rewrite (print_host_Meta _ _ _ Hmeta), Hknown in Hrun. by apply Hrun.
  - intros hostvars Hmeta Hunknown Hprint.
    rewrite (print_host_Meta _ _ _ Hmeta), Hunknown in Hrun. by apply Hrun.
  - intros hosts Hmeta Hprint.
    rewrite (print_host_Hosts _ _ _ Hmeta) in Hrun. by apply Hrun.
Qed.

Lemma host_mode_prints_hostvar_witness :
  run (sample_world ∅ sample_csv) (Parsed (Args false (Some "vm2") None))
  = Outcome [PrintedHostvar vm2_vars] [] 0.
Proof.
  assert (∃ rows inv hostvars,
            CSVReader.read (sample_world ∅ sample_csv) reader
              (csv_path (sample_world ∅ sample_csv) (EnvConfig.Make None builtin))
            = Ok (rows, []) ∧
            AnsibleInventoryBuilder.build
              (builder (sample_world ∅ sample_csv) (EnvConfig.Make None builtin)) rows
            = Ok inv ∧
            inv !! "_meta" = Some (Meta hostvars) ∧ hostvars !! Some "vm2" = Some vm2_vars)
    as (rows & inv & hostvars & Hread & Hbuild & Hmeta & Hknown).
  { do 3 eexists. split; [reflexivity|]. split; [reflexivity|]. split; reflexivity. }
  assert ("vm2" ≠ "") as Hne by discriminate.
  exact (proj1 (host_mode_prints_hostvar (sample_world ∅ sample_csv) (Args false None None)
                  "vm2" (EnvConfig.Make None builtin) rows [] inv Hne eq_refl Hread Hbuild)
           hostvars vm2_vars Hmeta Hknown eq_refl).
Defined.

(** C9. With [--host] followed by the empty string the single-host mode is
    not taken: the run is the run without [--host], so whatever it prints is
    the whole inventory, never the variables of one host; and when the
    inventory is assembled and [sys.stdout] takes it, it is printed. *)
Theorem empty_host_argument_lists w a :
  run w (Parsed (with_host a (Some ""))) = run w (Parsed (with_host a None)) ∧
  (∀ out, out ∈ stdout (run w (Parsed (with_host a (Some "")))) →
          ∃ inv, out = PrintedInventory inv) ∧
  (∀ cfg rows warnings inv,
     config w a = Ok cfg →
     CSVReader.read w reader (csv_path w cfg) = Ok (rows, warnings) →
     AnsibleInventoryBuilder.build (builder w cfg) rows = Ok inv →
     print_raises w (PrintedInventory inv) = None →
     run w (Parsed (with_host a (Some ""))) = Outcome [PrintedInventory inv] warnings 0).
Proof.
  split; [reflexivity|]. split.
  - intros out. unfold run, pipeline.
    destruct (config _ _) as [cfg|e]; [|rewrite handler_stdout; by intros ?%elem_of_nil].
    destruct (CSVReader.read _ _ _) as [[rows warnings]|e];
      [|rewrite handler_stdout; by intros ?%elem_of_nil].
    destruct (AnsibleInventoryBuilder.build _ rows) as [inv|e];
      [|rewrite handler_stdout; by intros ?%elem_of_nil].
    destruct (print_raises _ _) as [e|];
      [rewrite handler_stdout; by intros ?%elem_of_nil|].
    simpl. intros ->%list_elem_of_singleton. by eexists.
  - intros cfg rows warnings inv Hcfg Hread Hbuild Hprint. rewrite run_host_empty.
    apply run_list_mode. by exists cfg, rows.
Qed.

Lemma empty_host_argument_lists_witness :
  ∃ inv warnings, run (sample_world ∅ sample_csv) (Parsed (Args false (Some "") None))
                  = Outcome [PrintedInventory inv] warnings 0.
Proof.
  assert (listed (run (sample_world ∅ sample_csv) (Parsed (Args false None None))) = true)
    as (inv & warnings & Hrun)%listed_inv by reflexivity.
  apply (run_list_mode _ (Args false None None)) in Hrun
    as (cfg & rows & Hcfg & Hread & Hbuild & Hprint).
  exists inv, warnings.
  exact (proj2 (proj2 (empty_host_argument_lists (sample_world ∅ sample_csv)
                         (Args false None None))) cfg rows warnings inv
           Hcfg Hread Hbuild Hprint).
Defined.

(** *** A state map that is not a dict *)

Lemma load_state_map_parsed w raw parsed :
  environ w !! "INV_STATE_MAP" = Some raw → raw ≠ "" → json_loads w raw = Ok parsed →
  EnvConfig._load_state_map w = Ok parsed.
Proof.
  unfold EnvConfig._load_state_map, EnvConfig.getenv. intros -> Hraw ->.
  by destruct (String.eqb_spec raw "").
Qed.

Lemma load_state_map_Raise w raw e :
  environ w !! "INV_STATE_MAP" = Some raw → raw ≠ "" → json_loads w raw = Raise e →
  (∀ msg, e ≠ JSONDecodeError msg) →
  EnvConfig._load_state_map w = Raise e.
Proof.
  unfold EnvConfig._load_state_map, EnvConfig.getenv. intros -> Hraw -> He.
  destruct (String.eqb_spec raw ""); [done|]. simpl.
  destruct e; try done. by destruct (He msg).
Qed.

Lemma config_Raise w a e :
  EnvConfig._load_state_map w = Raise e → config w a = Raise e.
Proof. unfold config, EnvConfig.init. by intros ->. Qed.

Lemma build_NotDict self r rows t hostname state :
  AnsibleInventoryBuilder.state_map self = NotDict t →
  r !! "vm_name" = Some hostname → r !! "vm_state" = Some state →
  AnsibleInventoryBuilder.build self (r :: rows) = Raise (AttributeError t "get").
Proof.
  intros Hmap Hname Hstate.
  unfold AnsibleInventoryBuilder.build, AnsibleInventoryBuilder.build_row, getitem.
  simpl. rewrite Hname. simpl. rewrite Hstate.
  unfold AnsibleInventoryBuilder._normalize_state. by rewrite Hmap.
Qed.

Lemma build_no_rows self :
  ∃ inv, AnsibleInventoryBuilder.build self [] = Ok inv.
Proof.
  unfold AnsibleInventoryBuilder.build. simpl.
  rewrite dom_empty_L, elements_empty. simpl. eauto.
Qed.

(** C10, as stated, fails twice. With a JSON list as state map and a valid
    CSV that has no data row, the run prints an inventory and exits with code
    0. And the failure does not wait for a row with a non-empty power-state:
    a CSV whose only row has an empty power-state already ends the run with
    exit code 1. *)
Lemma non_dict_state_map_may_pass :
  ¬ (∀ w a raw t cfg f,
       environ w !! "INV_STATE_MAP" = Some raw → raw ≠ "" →
       json_loads w raw = Ok (NotDict t) →
       config w a = Ok cfg →
       fs w (csv_path w cfg) = Some f →
       required_cols ⊆ list_to_set (Text.strip <$> default [] (fieldnames f)) →
       exit_code (run w (Parsed a)) = 1%Z) ∧
  (∀ r, r ∈ [row_of [("vm_name", "vm1"); ("vm_state", ""); ("vm_ip_addr", "10.0.0.1")]] →
        truthy (r !! "vm_state") = false) ∧
  run (sample_world list_state_map stateless_csv) (Parsed (Args false None None))
  = Outcome [] [Fatal (AttributeError TList "get")] 1.
Proof.
  split; [|split].
  - intros Hclaim.
    specialize (Hclaim (sample_world list_state_map header_only_csv) (Args false None None)
                  "[]" TList (EnvConfig.Make None (NotDict TList)) header_only_csv eq_refl).
    discriminate Hclaim; [discriminate|reflexivity|reflexivity|reflexivity|].
    apply (bool_decide_unpack _). reflexivity.
  - intros r ->%list_elem_of_singleton. reflexivity.
  - reflexivity.
Qed.

(** C10, amended. Let [INV_STATE_MAP] hold a non-empty text. When
    [json.loads] returns for it a value that is not a dict, the program does
    not fall back to the built-in table: the value is kept as the state map
    and every state normalization fails. The assembler normalizes the
    power-state of every row that has the column, empty or not, so when the
    CSV loads with at least one retained row the run fails on the first of
    them: it prints nothing, writes a [FATAL] line and exits with code 1. When
    the CSV loads without any retained row nothing is normalized, and the
    inventory is printed with exit code 0 if [sys.stdout] takes it. When
    [json.loads] raises another exception than [JSONDecodeError], as it does
    for some valid JSON that is not an object (an integer beyond the digit
    limit), the run ends there, before the CSV is read, in the [except]
    clause for that exception. *)
Theorem non_dict_state_map_fails_first_row w a raw :
  environ w !! "INV_STATE_MAP" = Some raw → raw ≠ "" →
  (∀ t, json_loads w raw = Ok (NotDict t) →
     ∃ cfg, config w a = Ok cfg ∧
       EnvConfig.get_state_map cfg = NotDict t ∧
       (∀ state, DynamicGrouper._normalize_state (grouper w cfg) state
                 = Raise (AttributeError t "get")) ∧
       (∀ state, AnsibleInventoryBuilder._normalize_state (builder w cfg) state
                 = Raise (AttributeError t "get")) ∧
       (∀ rows warnings,
          CSVReader.read w reader (csv_path w cfg) = Ok (rows, warnings) → rows ≠ [] →
          run w (Parsed a) = Outcome [] (warnings ++ [Fatal (AttributeError t "get")]) 1) ∧
       (∀ warnings,
          CSVReader.read w reader (csv_path w cfg) = Ok ([], warnings) →
          ∃ inv, AnsibleInventoryBuilder.build (builder w cfg) [] = Ok inv ∧
                 (print_raises w (PrintedInventory inv) = None →
                  run w (Parsed (with_host a None))
                  = Outcome [PrintedInventory inv] warnings 0))) ∧
  (∀ e, json_loads w raw = Raise e → (∀ msg, e ≠ JSONDecodeError msg) →
     config w a = Raise e ∧
     stdout (run w (Parsed a)) = [] ∧
     (∀ msg, e = ValueError msg → run w (Parsed a) = Outcome [] [Error msg] 2) ∧
     (unexpected e = false → ∃ msg, run w (Parsed a) = Outcome [] [Error msg] 2) ∧
     (unexpected e = true → run w (Parsed a) = Outcome [] [Fatal e] 1)).
Proof.
  intros Henv Hraw. split.
  - intros t Hjson.
    pose proof (load_state_map_parsed w raw _ Henv Hraw Hjson) as Hmap.
    exists (EnvConfig.Make (arg_csv a) (NotDict t)).
    assert (config w a = Ok (EnvConfig.Make (arg_csv a) (NotDict t))) as Hcfg.
    { apply config_Ok. by eexists. }
    split; [done|]. split; [done|]. split; [done|]. split; [done|]. split.
    + intros [|r rows] warnings Hread Hrows; [done|].
      destruct (read_rows _ _ _ _ _ Hread r) as [Hname Hcolumns]; [by left|].
      destruct (Hcolumns "vm_state") as [state Hstate].
      { rewrite reader_required. apply (bool_decide_unpack _). reflexivity. }
      destruct (r !! "vm_name") as [hostname|] eqn:Hhost; [|done].
      pose proof (build_NotDict (builder w (EnvConfig.Make (arg_csv a) (NotDict t)))
                    r rows t hostname state eq_refl Hhost Hstate) as Hbuild.
      by rewrite (run_build_Raise _ _ _ _ _ _ Hcfg Hread Hbuild).
    + intros warnings Hread.
      destruct (build_no_rows (builder w (EnvConfig.Make (arg_csv a) (NotDict t))))
        as [inv Hbuild].
      exists inv. split; [done|]. intros Hprint. apply run_list_mode. by eauto 10.
  - intros e Hjson He.
    pose proof (config_Raise w a e (load_state_map_Raise w raw e Henv Hraw Hjson He)) as Hcfg.
    rewrite (run_config_Raise _ _ _ Hcfg). split; [done|]. split; [apply handler_stdout|].
    split; [by intros msg ->|]. split; destruct e; simpl; by eauto.
Qed.

Lemma non_dict_state_map_fails_first_row_witness :
  run (sample_world list_state_map sample_csv) (Parsed (Args false None None))
  = Outcome [] ([] ++ [Fatal (AttributeError TList "get")]) 1.
Proof.
  assert ("[]" ≠ "") as Hraw by discriminate.
  destruct (proj1 (non_dict_state_map_fails_first_row
                     (sample_world list_state_map sample_csv) (Args false None None)
                     "[]" eq_refl Hraw) TList eq_refl)
    as (cfg & Hcfg & _ & _ & _ & Hrows & _).
  injection Hcfg as <-.
  assert (is_Ok (CSVReader.read (sample_world list_state_map sample_csv) reader
                   (csv_path (sample_world list_state_map sample_csv)
                             (EnvConfig.Make None (NotDict TList)))) = true)
    as [[rows warnings] Hread]%is_Ok_inv by reflexivity.
  assert (rows ≠ [] ∧ warnings = []) as [Hne ->].
  { revert Hread. intros [= <- <-]. split; [discriminate|reflexivity]. }
  exact (Hrows rows [] Hread Hne).
Defined.

End application_facts.

Section document_facts.
Import AnsibleInventoryBuilder.

(** *** Every host has variables and a group *)

Lemma build_row_hostvars self st r st' :
  build_row self st r = Ok st' →
  ∃ hostname vars, r !! "vm_name" = Some hostname ∧ st'.1 = <[hostname := vars]> st.1.
Proof.
  unfold build_row, getitem.
  destruct (r !! "vm_name") as [hostname|]; simpl; [|done].
  destruct (match r !! "vm_state" with Some _ => _ | None => _ end) as [vars|];
    simpl; [|done].
  intros [= <-]. by exists hostname, vars.
Qed.

Lemma build_rows_hostvars self rows st r hostname :
  for_each (build_row self) (∅, ∅) rows = Ok st →
  r ∈ rows → r !! "vm_name" = Some hostname → is_Some (st.1 !! hostname).
Proof.
  intros Hrun Hin Hname. revert Hin Hrun.
  apply (for_each_member (λ st, is_Some (st.1 !! hostname))).
  - intros st1 st2 (hostname' & vars & Hname' & ->)%build_row_hostvars.
    assert (hostname' = hostname) as -> by congruence. by rewrite lookup_insert_eq.
  - intros st1 st2 r' His (hostname' & vars & _ & ->)%build_row_hostvars.
    destruct (decide (hostname' = hostname)) as [->|];
      [by rewrite lookup_insert_eq|by rewrite lookup_insert_ne].
Qed.

Lemma sorted_cells_elem_of l l' hostname :
  sorted_cells l = Ok l' → hostname ∈ l' ↔ hostname ∈ l.
Proof.
  unfold sorted_cells. destruct l as [|c1 [|c2 l]]; [by intros [= <-]..|].
  destruct (mapM id (c1 :: c2 :: l)) as [names|] eqn:Hnames; [|done].
  intros [= <-]. apply mapM_Some in Hnames.
  assert (c1 :: c2 :: l = Some <$> names) as ->.
  { apply list_eq_Forall2, Forall2_fmap_r.
    eapply Forall2_impl; [done|]. intros c name Hc. exact Hc. }
  rewrite !list_elem_of_fmap. by setoid_rewrite sorted_elem_of.
Qed.

(** The second loop of [build]: every group name gets its sorted host list,
    the other keys of the document stay. *)
Lemma build_groups_loop (gs : groups) names (inv0 inv1 : inventory) :
  for_each (λ (inv : inventory) group,
              hosts ← sorted_cells (gs !!! group); Ok (<[group := Hosts hosts]> inv))
           inv0 names = Ok inv1 →
  (∀ g, g ∈ names →
        ∃ hosts, sorted_cells (gs !!! g) = Ok hosts ∧ inv1 !! g = Some (Hosts hosts)) ∧
  (∀ g, g ∉ names → inv1 !! g = inv0 !! g).
Proof.
  revert inv0. induction names as [|name names IH]; intros inv0 Hrun.
  - injection Hrun as <-. split; [by intros g ?%elem_of_nil|done].
  - apply for_each_cons_Ok in Hrun as (inv' & Hname & Hrun).
    destruct (sorted_cells (gs !!! name)) as [hosts|] eqn:Hsorted; [|done].
    injection Hname as <-. destruct (IH _ Hrun) as [Hin Hout]. split.
    + intros g Hg. destruct (decide (g ∈ names)) as [?|Hnotin]; [by apply Hin|].
      apply elem_of_cons in Hg as [->|?]; [|done].
      exists hosts. split; [done|]. by rewrite (Hout _ Hnotin), lookup_insert_eq.
    + intros g [Hne Hnotin]%not_elem_of_cons.
      by rewrite (Hout _ Hnotin), lookup_insert_ne.
Qed.

Lemma host_in_a_group self rows gs r hostname :
  DynamicGrouper.generate_groups self rows = Ok gs →
  r ∈ rows → r !! "vm_name" = Some hostname →
  ∃ g, (g = "ungrouped" ∨ Text.startswith "vm_" g = true) ∧ hostname ∈ gs !!! g.
Proof.
  intros Hrun Hin Hname. revert Hin Hrun.
  apply (for_each_member
           (λ gs, ∃ g, (g = "ungrouped" ∨ Text.startswith "vm_" g = true)
                       ∧ hostname ∈ gs !!! g)).
  - intros gs1 gs2 Hrow.
    destruct (group_row_after_rules _ _ _ _ _ Hrow Hname) as (gs3 & _ & ->).
    destruct (DynamicGrouper.in_vm_group hostname gs3) eqn:Hvm.
    + apply in_vm_group_spec in Hvm as (g & Hg & Hh). exists g. split; [by right|].
      eapply prefix_elem_of; [apply default_rule_grows|done].
    + exists "ungrouped". split; [by left|]. apply default_rule_ungrouped.
      intros g Hg Hh. assert (DynamicGrouper.in_vm_group hostname gs3 = true) as Hvm'
        by (apply in_vm_group_spec; eauto).
      congruence.
  - intros gs1 gs2 r' (g & Hg & Hh) Hrow. exists g. split; [done|].
    eapply prefix_elem_of; [by eapply group_row_grows|done].
Qed.

(** What the document guarantees for the host of every row: it is listed
    in a group and, unless a group is itself named [_meta], it has an entry
    in [_meta.hostvars]. *)
Lemma build_covers_hosts self rows inv r hostname :
  build self rows = Ok inv → r ∈ rows → r !! "vm_name" = Some hostname →
  (∃ g hosts, inv !! g = Some (Hosts hosts) ∧ hostname ∈ hosts) ∧
  ((∀ gs, DynamicGrouper.generate_groups (grouper self) rows = Ok gs → gs !! "_meta" = None) →
   is_Some (InventoryOutput.meta_hostvars inv !! hostname)).
Proof.
  intros (hostvars & index & gs & inv1 & Hrows & Hgroups & Hloop & ->)%build_Ok Hin Hname.
  destruct (build_groups_loop _ _ _ _ Hloop) as [Hlisted Hkept]. split.
  - destruct (host_in_a_group _ _ _ _ _ Hgroups Hin Hname) as (g & Hg & Hh).
    destruct (Hlisted g) as (hosts & Hsorted & Hentry).
    { apply sorted_elem_of, elem_of_elements, elem_of_dom.
      rewrite lookup_total_alt in Hh.
      destruct (gs !! g); [done|by apply elem_of_nil in Hh]. }
    exists g, hosts. split; [|by apply (sorted_cells_elem_of _ _ _ Hsorted)].
    rewrite lookup_insert_ne; [done|].
    intros <-. by destruct Hg as [?|?].
  - intros Hmeta. unfold InventoryOutput.meta_hostvars.
    rewrite lookup_insert_ne by done. rewrite Hkept.
    + rewrite lookup_singleton_eq. by eapply (build_rows_hostvars _ _ (hostvars, index)).
    + rewrite sorted_elem_of, elem_of_elements, elem_of_dom, (Hmeta gs Hgroups).
      by intros [? ?].
Qed.

(** *** The sample inventory *)

(** The three-row sample gives one host to each owner and state group, all
    three to [ungrouped], and lists every group under [all]; a host's
    variables are its columns, [ansible_host] and [vmware_state]. *)
Example sample_inventory :
  ∃ inv hostvars,
    Application.run (sample_world ∅ sample_csv) (Parsed (Args true None None))
    = Outcome [PrintedInventory inv] [] 0 ∧
    inv !! "owner_alice" = Some (Hosts [Some "vm1"]) ∧
    inv !! "owner_bob" = Some (Hosts [Some "vm2"]) ∧
    inv !! "state_poweredon" = Some (Hosts [Some "vm1"]) ∧
    inv !! "state_poweredoff" = Some (Hosts [Some "vm2"]) ∧
    inv !! "state_absent" = Some (Hosts [Some "vm3"]) ∧
    inv !! "ungrouped" = Some (Hosts [Some "vm1"; Some "vm2"; Some "vm3"]) ∧
    inv !! "all" = Some (All ["owner_alice"; "owner_bob"; "state_absent";
                               "state_poweredoff"; "state_poweredon"; "ungrouped"] ∅) ∧
    inv !! "_meta" = Some (Meta hostvars) ∧
    dom hostvars = {[ Some "vm1"; Some "vm2"; Some "vm3" ]} ∧
    hostvars !! Some "vm3"
    = Some (row_of [("vm_name", "vm3"); ("vm_state", "del"); ("vm_ip_addr", "10.0.0.3");
                    ("vm_owner", ""); ("ansible_host", "10.0.0.3");
                    ("vmware_state", "absent")]).
Proof. eexists _, _. repeat split; reflexivity. Qed.

(** *** A group named [_meta] *)

(** C2, at the failing input. The CSV is valid and has one host, [h1],
    whose custom-group column is [_meta]. The second loop of [build] stores
    the group's host list under the key [_meta], over the host variables put
    there before: the document has no [_meta.hostvars], [h1] is a key of
    nothing, and [--host h1] prints an empty object. *)
Theorem meta_group_replaces_hostvars :
  ∃ inv,
    Application.run (sample_world ∅ meta_csv) (Parsed (Args false None None))
    = Outcome [PrintedInventory inv] [] 0 ∧
    inv !! "_meta" = Some (Hosts [Some "h1"]) ∧
    InventoryOutput.meta_hostvars inv !! Some "h1" = None ∧
    Application.run (sample_world ∅ meta_csv) (Parsed (Args false (Some "h1") None))
    = Outcome [PrintedHostvar ∅] [] 0.
Proof. eexists. repeat split; reflexivity. Qed.

End document_facts.

(** ** Runs that succeed *)

Section totality.







Lemma truthy_Some (v : option cell) : truthy v = true → ∃ name, v = Some (Some name).
Proof. destruct v as [[name|]|]; [by eauto|done..]. Qed.




End totality.

(** * Further properties *)

(** ** Configuration *)

Section config_properties.
Import Application.

Lemma run_same_setup w w' a a' :
  fs w' = fs w → print_raises w' = print_raises w → arg_host a' = arg_host a →
  EnvConfig._load_state_map w' = EnvConfig._load_state_map w →
  EnvConfig.get_flags w' = EnvConfig.get_flags w →
  (∀ sm, csv_path w' (EnvConfig.Make (arg_csv a') sm)
         = csv_path w (EnvConfig.Make (arg_csv a) sm)) →
  run w' (Parsed a') = run w (Parsed a).
Proof.
  intros Hfs Hprint Hhost Hmap Hflags Hpath.
  unfold run, pipeline, config, EnvConfig.init. rewrite Hmap.
  destruct (EnvConfig._load_state_map w) as [sm|e]; simpl; [|done].
  rewrite Hpath.
  assert (builder w' (EnvConfig.Make (arg_csv a') sm)
          = builder w (EnvConfig.Make (arg_csv a) sm)) as ->.
  { unfold builder, grouper, AnsibleInventoryBuilder.init, DynamicGrouper.init,
      EnvConfig.get_state_map. simpl. by rewrite Hflags. }
  unfold output. rewrite Hhost, Hprint. unfold CSVReader.read. by rewrite Hfs.
Qed.

Lemma envflag_delete w name other default :
  other ≠ name →
  EnvConfig._envflag (with_environ w (delete other (environ w))) name default
  = EnvConfig._envflag w name default.
Proof.
  intros Hne. unfold EnvConfig._envflag, EnvConfig.getenv. simpl.
  by rewrite lookup_delete_ne.
Qed.

(** X1. An [INV_STATE_MAP] that is empty, or that [json.loads] rejects with
    [JSONDecodeError], is ignored without a word: the state map is the built-in
    table and the whole run is the run without the variable. *)
Theorem unusable_state_map_is_ignored w a raw :
  environ w !! "INV_STATE_MAP" = Some raw →
  raw = "" ∨ (∃ msg, json_loads w raw = Raise (JSONDecodeError msg)) →
  EnvConfig._load_state_map w = Ok builtin ∧
  run w (Parsed a) = run (with_environ w (delete "INV_STATE_MAP" (environ w))) (Parsed a).
Proof.
  intros Henv Hraw.
  assert (EnvConfig._load_state_map w = Ok builtin) as Hmap.
  { unfold EnvConfig._load_state_map, EnvConfig.getenv. rewrite Henv.
    destruct Hraw as [->|[msg Hjson]]; [done|]. rewrite Hjson. by destruct (negb _). }
  split; [done|]. symmetry. apply run_same_setup; [done..| | |].
  - rewrite Hmap. unfold EnvConfig._load_state_map, EnvConfig.getenv. simpl.
    by rewrite lookup_delete_eq.
  - unfold EnvConfig.get_flags. by rewrite !envflag_delete.
  - intros sm. unfold csv_path, EnvConfig.get_csv_path, EnvConfig.getenv. simpl.
    by rewrite lookup_delete_ne.
Qed.

Lemma unusable_state_map_is_ignored_witness :
  EnvConfig._load_state_map garbled_world = Ok builtin ∧
  run garbled_world (Parsed (Args false None None))
  = run (with_environ garbled_world (delete "INV_STATE_MAP" (environ garbled_world)))
        (Parsed (Args false None None)).
Proof.
  apply (unusable_state_map_is_ignored garbled_world (Args false None None) "{on: off").
  - reflexivity.
  - right. by eexists.
Defined.

(** X2. A JSON object in [INV_STATE_MAP] replaces the built-in table as a
    whole: the configuration loads, and the classifier and the assembler look a
    raw state up in that object alone, so a raw state the object does not list
    becomes [poweredon] even when the built-in table lists it. *)
Theorem custom_state_map_replaces_builtin w a raw table :
  environ w !! "INV_STATE_MAP" = Some raw → raw ≠ "" →
  json_loads w raw = Ok (StateDict table) →
  ∃ cfg, config w a = Ok cfg ∧
    ∀ state,
      DynamicGrouper._normalize_state (grouper w cfg) state
      = Ok (default "poweredon" (table !! Text.lower (Text.strip (or_empty state)))) ∧
      AnsibleInventoryBuilder._normalize_state (builder w cfg) state
      = Ok (default "poweredon" (table !! Text.lower (Text.strip (or_empty state)))) ∧
      (table !! Text.lower (Text.strip (or_empty state)) = None →
       DynamicGrouper._normalize_state (grouper w cfg) state = Ok "poweredon" ∧
       AnsibleInventoryBuilder._normalize_state (builder w cfg) state = Ok "poweredon").
Proof.
  intros Henv Hraw Hjson.
  pose proof (load_state_map_parsed w raw _ Henv Hraw Hjson) as Hmap.
  exists (EnvConfig.Make (arg_csv a) (StateDict table)).
  split; [apply config_Ok; by eexists|]. intros state.
  split; [done|]. split; [done|]. intros Hnone.
  unfold DynamicGrouper._normalize_state, AnsibleInventoryBuilder._normalize_state. simpl.
  by rewrite Hnone.
Qed.

Lemma custom_state_map_replaces_builtin_witness :
  ∃ cfg,
    config (dict_world {[ "INV_STATE_MAP" := "{}" ]} sample_csv) (Args false None None)
    = Ok cfg ∧
    DynamicGrouper._normalize_state
      (grouper (dict_world {[ "INV_STATE_MAP" := "{}" ]} sample_csv) cfg)
      (Some "off") = Ok "poweredon" ∧
    AnsibleInventoryBuilder._normalize_state
      (builder (dict_world {[ "INV_STATE_MAP" := "{}" ]} sample_csv) cfg)
      (Some "off") = Ok "poweredon".
Proof.
  assert ("{}" ≠ "") as Hraw by discriminate.
  assert (environ (dict_world {[ "INV_STATE_MAP" := "{}" ]} sample_csv) !! "INV_STATE_MAP"
          = Some "{}") as Henv by reflexivity.
  destruct (custom_state_map_replaces_builtin
              (dict_world {[ "INV_STATE_MAP" := "{}" ]} sample_csv) (Args false None None)
              "{}" ∅ Henv Hraw eq_refl) as (cfg & Hcfg & Hnormalize).
  exists cfg. split; [exact Hcfg|].
  apply (Hnormalize (Some "off")). reflexivity.
Defined.

(** X3. A non-empty [INV_CSV] decides the CSV path and makes the positional
    path of the command line irrelevant to the whole run; an empty [INV_CSV]
    counts as unset, the positional path is then used when it is not empty, and
    the file next to the program otherwise. The state map plays no part. *)
Theorem csv_path_precedence w a :
  (∀ env_path csv, environ w !! "INV_CSV" = Some env_path → env_path ≠ "" →
     (∀ sm, csv_path w (EnvConfig.Make (arg_csv a) sm) = resolve w env_path) ∧
     run w (Parsed (with_csv a csv)) = run w (Parsed a)) ∧
  (∀ cli sm, environ w !! "INV_CSV" = None ∨ environ w !! "INV_CSV" = Some "" →
     arg_csv a = Some cli → cli ≠ "" →
     csv_path w (EnvConfig.Make (arg_csv a) sm) = resolve w cli) ∧
  (∀ sm, environ w !! "INV_CSV" = None ∨ environ w !! "INV_CSV" = Some "" →
     arg_csv a = None ∨ arg_csv a = Some "" →
     csv_path w (EnvConfig.Make (arg_csv a) sm) = script_dir_csv w).
Proof.
  unfold csv_path, EnvConfig.get_csv_path, EnvConfig.getenv. simpl.
  split; [|split].
  - intros env_path csv Henv Hne.
    assert (∀ cli sm, EnvConfig.get_csv_path w (EnvConfig.Make cli sm) = resolve w env_path)
      as Hpath.
    { intros cli sm. unfold EnvConfig.get_csv_path, EnvConfig.getenv. rewrite Henv.
      by destruct (String.eqb_spec env_path ""). }
    split; [intros sm; apply (Hpath (arg_csv a) sm)|].
    apply run_same_setup; [done..|]. intros sm. unfold csv_path. by rewrite !Hpath.
  - intros cli sm Henv -> Hne.
    destruct (String.eqb_spec cli ""); [done|]. by destruct Henv as [->| ->].
  - intros sm Henv Hcli.
    destruct Henv as [->| ->], Hcli as [->| ->]; done.
Qed.

Lemma csv_path_precedence_witness :
  csv_path (sample_world {[ "INV_CSV" := "/data/vms.csv" ]} sample_csv)
           (EnvConfig.Make (Some "other.csv") builtin) = "/data/vms.csv" ∧
  csv_path (sample_world {[ "INV_CSV" := "" ]} sample_csv)
           (EnvConfig.Make (Some "other.csv") builtin) = "other.csv" ∧
  csv_path (sample_world ∅ sample_csv) (EnvConfig.Make (Some "") builtin) = "/inv/vm_data.csv".
Proof.
  split; [|split].
  - destruct (csv_path_precedence (sample_world {[ "INV_CSV" := "/data/vms.csv" ]} sample_csv)
                (Args false None (Some "other.csv"))) as (Henv & _ & _).
    apply (Henv "/data/vms.csv" None); [reflexivity|discriminate].
  - destruct (csv_path_precedence (sample_world {[ "INV_CSV" := "" ]} sample_csv)
                (Args false None (Some "other.csv"))) as (_ & Hcli & _).
    apply (Hcli "other.csv"); [right; reflexivity|reflexivity|discriminate].
  - destruct (csv_path_precedence (sample_world ∅ sample_csv) (Args false None (Some "")))
      as (_ & _ & Hdefault).
    apply Hdefault; [left|right]; reflexivity.
Defined.

End config_properties.

(** ** The CSV loader, continued *)

Section loader_properties.
Import CSVReader.

Lemma rstrip_idemp s : Text.rstrip (Text.rstrip s) = Text.rstrip s.
Proof.
  induction s as [|c s IH]; simpl; [done|].
  destruct (Text.rstrip s) as [|c' r] eqn:Hr.
  - destruct (Text.is_space c) eqn:Hc; [done|].
    change (Text.rstrip (String c "")) with (if Text.is_space c then "" else String c "").
    by rewrite Hc.
  - change (Text.rstrip (String c (String c' r)))
      with (match Text.rstrip (String c' r) with
            | EmptyString => if Text.is_space c then EmptyString else String c EmptyString
            | r' => String c r'
            end).
    by rewrite IH.
Qed.

Lemma lstrip_rstrip_lstrip s :
  Text.lstrip (Text.rstrip (Text.lstrip s)) = Text.rstrip (Text.lstrip s).
Proof.
  induction s as [|c s IH]; simpl; [done|].
  destruct (Text.is_space c) eqn:Hc; [done|]. simpl.
  destruct (Text.rstrip s); rewrite ?Hc; simpl; by rewrite Hc.
Qed.

Lemma strip_idemp s : Text.strip (Text.strip s) = Text.strip s.
Proof. unfold Text.strip. by rewrite lstrip_rstrip_lstrip, rstrip_idemp. Qed.

Lemma od_set_keys_fold_zip (pairs : list (string * string)) d k :
  k ∈ (foldl (λ d kv, od_set kv.1 (Some kv.2) d) d pairs).*1 → k ∈ d.*1 ∨ k ∈ pairs.*1.
Proof.
  revert d. induction pairs as [|[k0 v0] pairs IH]; intros d; simpl; [by left|].
  intros [Hk|Hk]%IH; [|by right; right].
  apply od_set_keys in Hk as [->|?]; [right; left|by left].
Qed.

Lemma od_set_keys_fold_pad (rest : list string) d k :
  k ∈ (foldl (λ d k, od_set k None d) d rest).*1 → k ∈ d.*1 ∨ k ∈ rest.
Proof.
  revert d. induction rest as [|k0 rest IH]; intros d; simpl; [by left|].
  intros [Hk|Hk]%IH; [|by right; right].
  apply od_set_keys in Hk as [->|?]; [right; left|by left].
Qed.

Lemma dict_row_keys_inv names record name :
  name ∈ (named (dict_row names record)).*1 → name ∈ names.
Proof.
  unfold dict_row.
  assert (∀ k, k ∈ (zip names record).*1 → k ∈ names) as Hzip.
  { intros k ([k' v] & -> & Hin)%list_elem_of_fmap. by eapply elem_of_zip_l. }
  destruct (decide (length names < length record)); simpl.
  - intros [?%elem_of_nil|?]%od_set_keys_fold_zip; [done|by apply Hzip].
  - intros [[?%elem_of_nil|?]%od_set_keys_fold_zip|Hdrop]%od_set_keys_fold_pad;
      [done|by apply Hzip|].
    apply list_elem_of_lookup in Hdrop as [i Hi]. rewrite lookup_drop in Hi.
    by eapply list_elem_of_lookup_2.
Qed.

(** What the dict comprehension of [read] makes of a raw row. *)
Lemma strip_row_spec raw r :
  strip_row raw = Ok r →
  (∀ k, is_Some (r !! k) ↔ ∃ name, name ∈ (named raw).*1 ∧ Text.strip name = k) ∧
  (∀ k v, r !! k = Some (Some v) → Text.strip v = v).
Proof.
  unfold strip_row. destruct (restkey raw); [done|]. intros [= <-].
  generalize (named raw). intros kvs.
  assert (∀ (acc : row),
            let r := foldl (λ (acc : row) kv, <[Text.strip kv.1 := Text.strip <$> kv.2]> acc)
                           acc kvs in
            (∀ k, is_Some (r !! k) ↔
                  is_Some (acc !! k) ∨ ∃ name, name ∈ kvs.*1 ∧ Text.strip name = k) ∧
            ((∀ k v, acc !! k = Some (Some v) → Text.strip v = v) →
             ∀ k v, r !! k = Some (Some v) → Text.strip v = v)) as Hfold.
  { induction kvs as [|[k0 v0] kvs IH]; intros acc; simpl.
    - split; [|done]. intros k. split; [by left|]. intros [?|(? & ?%elem_of_nil & _)]; done.
    - destruct (IH (<[Text.strip k0 := Text.strip <$> v0]> acc)) as [Hkeys Hvalues].
      split.
      + intros k. rewrite Hkeys. setoid_rewrite elem_of_cons.
        destruct (decide (Text.strip k0 = k)) as [<-|Hne].
        * rewrite lookup_insert_eq. split; [|by left; eexists].
          intros _. right. exists k0. by split; [left|].
        * rewrite lookup_insert_ne by done. split.
          -- intros [?|(name & ? & ?)]; [by left|]. right. exists name. by split; [right|].
          -- intros [?|(name & [->|?] & ?)]; [by left|done|]. right. by exists name.
      + intros Hacc. apply Hvalues. intros k v.
        destruct (decide (Text.strip k0 = k)) as [<-|Hne].
        * rewrite lookup_insert_eq. destruct v0 as [v0|]; [|done].
          simpl. intros [= <-]. apply strip_idemp.
        * rewrite lookup_insert_ne by done. apply Hacc. }
  destruct (Hfold ∅) as [Hkeys Hvalues]. split.
  - intros k. rewrite Hkeys, lookup_empty. split; [|by right].
    intros [[? ?]|?]; done.
  - apply Hvalues. intros k v. by rewrite lookup_empty.
Qed.

Lemma read_Ok_inv w required path rows warnings :
  read w required path = Ok (rows, warnings) →
  ∃ f, fs w path = Some f ∧
       Text.strip <$> default [] (fieldnames f) ≠ [] ∧
       required ∖ list_to_set (Text.strip <$> default [] (fieldnames f)) = ∅ ∧
       for_each (λ (rows : list row) record,
                   row ← strip_row (dict_row (default [] (fieldnames f)) record);
                   Ok (if truthy (row !! "vm_name") then rows ++ [row] else rows))
                [] (filter (λ record, record ≠ []) (records f)) = Ok rows ∧
       _validate_uniqueness rows = Ok warnings.
Proof.
  unfold read. destruct (fs w path) as [f|]; [|done]. intros Hread. exists f.
  split; [done|].
  destruct (Text.strip <$> default [] (fieldnames f)) as [|header headers] eqn:Hheaders;
    [done|].
  destruct (decide (_ = ∅)) as [Hmissing|]; [|done].
  destruct (for_each _ [] _) as [rows'|] eqn:Hloop; simpl in Hread; [|done].
  destruct (_validate_uniqueness rows') eqn:Hvalid; simpl in Hread; [|done].
  injection Hread as <- <-. done.
Qed.

(** X4. Every row the loader returns has a non-empty host name; its keys
    are exactly the trimmed names of the header, and its keys and values carry
    no white space at either end. *)
Theorem loaded_rows_are_trimmed w required path rows warnings f r :
  read w required path = Ok (rows, warnings) → fs w path = Some f → r ∈ rows →
  (∃ name, r !! "vm_name" = Some (Some name) ∧ name ≠ "") ∧
  (∀ k, is_Some (r !! k) ↔ k ∈ Text.strip <$> default [] (fieldnames f)) ∧
  (∀ k, is_Some (r !! k) → Text.strip k = k) ∧
  (∀ k v, r !! k = Some (Some v) → Text.strip v = v).
Proof.
  intros (f' & Hfs & _ & _ & Hloop & _)%read_Ok_inv Hfs' Hin.
  assert (f' = f) as -> by congruence. clear Hfs Hfs'.
  set (names := default [] (fieldnames f)) in *.
  assert (Forall (λ r : row,
            truthy (r !! "vm_name") = true ∧
            (∀ k, is_Some (r !! k) ↔ k ∈ Text.strip <$> names) ∧
            (∀ k v, r !! k = Some (Some v) → Text.strip v = v)) rows) as Hall.
  { revert Hloop. apply (for_each_invariant (Forall (λ r : row, _))); [|constructor].
    intros kept record kept' _ Hkept Hbody.
    destruct (strip_row (dict_row names record)) as [r'|] eqn:Hrow; simpl in Hbody; [|done].
    injection Hbody as <-.
    destruct (truthy (r' !! "vm_name")) eqn:Hname; [|done].
    apply Forall_app. split; [done|]. apply Forall_singleton. split; [done|].
    destruct (strip_row_spec _ _ Hrow) as [Hkeys Hvalues]. split; [|done].
    intros k. rewrite Hkeys, list_elem_of_fmap. split.
    - intros (name & Hname' & <-). exists name. split; [done|].
      by eapply dict_row_keys_inv.
    - intros (name & -> & Hname'). exists name. split; [|done].
      apply dict_row_keys; [|done].
      unfold strip_row in Hrow. by destruct (restkey (dict_row names record)). }
  apply (proj1 (Forall_forall _ _) Hall) in Hin as (Hname & Hkeys & Hvalues).
  split; [|split; [done|split; [|done]]].
  - destruct (r !! "vm_name") as [[name|]|]; [|done..]. exists name. split; [done|].
    intros ->. done.
  - intros k (name & -> & _)%Hkeys%list_elem_of_fmap. apply strip_idemp.
Qed.

Lemma loaded_rows_are_trimmed_witness :
  read (sample_world ∅ ragged_csv) Application.required_cols "/inv/vm_data.csv"
  = Ok (ragged_rows, []) ∧
  ∀ r, r ∈ ragged_rows →
    (∃ name, r !! "vm_name" = Some (Some name) ∧ name ≠ "") ∧
    (∀ k, is_Some (r !! k) ↔
          k ∈ Text.strip <$> [" vm_name"; "vm_state "; "vm_ip_addr"; "vm_owner"]) ∧
    (∀ k, is_Some (r !! k) → Text.strip k = k) ∧
    (∀ k v, r !! k = Some (Some v) → Text.strip v = v).
Proof.
  split; [reflexivity|]. intros r Hin.
  apply (loaded_rows_are_trimmed (sample_world ∅ ragged_csv) Application.required_cols
           "/inv/vm_data.csv" ragged_rows [] ragged_csv r); [reflexivity..|exact Hin].
Defined.



(** A loop whose turns can raise one exception only raises it as soon as a
    turn does. *)
Lemma for_each_raises {S A} (body : S → A → result S) e s l x :
  (∀ s y, y ∈ l → (∃ s', body s y = Ok s') ∨ body s y = Raise e) →
  x ∈ l → (∀ s, body s x = Raise e) →
  for_each body s l = Raise e.
Proof.
  revert s. induction l as [|y l IH]; intros s Honly Hin Hx; [by apply elem_of_nil in Hin|].
  simpl. destruct (Honly s y) as [[s' Hy]|Hy]; [by left| |by rewrite Hy].
  rewrite Hy. simpl.
  apply elem_of_cons in Hin as [->|Hin]; [by rewrite Hx in Hy|].
  apply IH; [|done..]. intros s1 z Hz. apply Honly. by right.
Qed.

(** X6. When the configuration loads, a data line with more fields than
    the header ends the run: the key [None] that [csv.DictReader] files the
    surplus under has no [strip], so with a header that has the required
    columns the program prints nothing, writes a [FATAL] line and exits with
    code 1, whatever the other lines hold. *)
Theorem overlong_line_is_fatal w a cfg f record :
  Application.config w a = Ok cfg →
  fs w (Application.csv_path w cfg) = Some f →
  Application.required_cols ⊆ list_to_set (Text.strip <$> default [] (fieldnames f)) →
  record ∈ records f → length (default [] (fieldnames f)) < length record →
  Application.run w (Parsed a) = Outcome [] [Fatal (AttributeError TNoneType "strip")] 1.
Proof.
  intros Hcfg Hfs Hrequired Hin Hlong.
  rewrite (run_read_Raise w a cfg (AttributeError TNoneType "strip")); [done..|].
  unfold read. rewrite Hfs. rewrite reader_required.
  set (names := default [] (fieldnames f)) in *.
  destruct (Text.strip <$> names) as [|header headers] eqn:Hheaders.
  { exfalso. assert ("vm_name" ∈ Application.required_cols) as Hname%Hrequired
      by (apply (bool_decide_unpack _); reflexivity).
    by apply elem_of_list_to_set, elem_of_nil in Hname. }
  rewrite <- Hheaders in Hrequired |- *.
  rewrite decide_True by by apply subseteq_empty_difference_L.
  rewrite (for_each_raises _ (AttributeError TNoneType "strip") _ _ record); [done| | |].
  - intros rows record' _. unfold strip_row, dict_row.
    destruct (decide (length names < length record')); simpl; eauto.
  - apply list_elem_of_filter. split; [|done]. intros ->. simpl in Hlong. lia.
  - intros rows. unfold strip_row, dict_row. by rewrite decide_True.
Qed.

Lemma overlong_line_is_fatal_witness :
  Application.run (sample_world ∅ overlong_csv) (Parsed (Args false None None))
  = Outcome [] [Fatal (AttributeError TNoneType "strip")] 1.
Proof.
  apply (overlong_line_is_fatal (sample_world ∅ overlong_csv) (Args false None None)
           (EnvConfig.Make None builtin) overlong_csv ["vm2"; "off"; "10.0.0.2"; "extra"]).
  - reflexivity.
  - reflexivity.
  - apply (bool_decide_unpack _). reflexivity.
  - right. left.
  - simpl. lia.
Defined.

End loader_properties.

(** ** Duplicate host names *)

Section duplicate_properties.
Import CSVReader.

Lemma times_app {A} `{EqDecision A} (x : A) l k : times x (l ++ k) = times x l + times x k.
Proof. unfold times. by rewrite filter_app, length_app. Qed.

Lemma times_singleton {A} `{EqDecision A} (x y : A) :
  times x [y] = if decide (y = x) then 1 else 0.
Proof. unfold times. rewrite filter_cons. by destruct (decide (y = x)). Qed.

Lemma times_pos {A} `{EqDecision A} (x : A) l : x ∈ l ↔ 1 ≤ times x l.
Proof.
  unfold times. induction l as [|y l IH]; simpl.
  - rewrite elem_of_nil. split; [done|lia].
  - rewrite filter_cons, elem_of_cons.
    destruct (decide (y = x)) as [->|Hne]; simpl; [split; [lia|by left]|].
    rewrite <- IH. split; [by intros [?|?]|by right].
Qed.

(** The loop of [_validate_uniqueness]: the names seen, and those seen more
    than once. *)
Lemma validate_loop rows :
  (∀ r : row, r ∈ rows → truthy (r !! "vm_name") = true) →
  ∃ seen dups,
    for_each (λ (st : gset cell * list cell) (r : row),
                name ← getitem r "vm_name";
                Ok ({[ name ]} ∪ st.1,
                    if decide (name ∈ st.1) then st.2 ++ [name] else st.2))
             (∅, []) rows = Ok (seen, dups) ∧
    (∀ c, c ∈ seen ↔ 1 ≤ times (Some c) (hostnames rows)) ∧
    (∀ c, c ∈ dups ↔ 2 ≤ times (Some c) (hostnames rows)) ∧
    Forall is_Some dups.
Proof.
  induction rows as [|r rows IH] using rev_ind; intros Hnames.
  - exists ∅, []. split; [done|]. split; [|split; [|done]]; intros c; simpl.
    + rewrite elem_of_empty. unfold times. simpl. lia.
    + rewrite elem_of_nil. unfold times. simpl. lia.
  - destruct IH as (seen & dups & Hloop & Hseen & Hdups & Hsome).
    { intros r' Hin. apply Hnames, elem_of_app. by left. }
    destruct (truthy_Some (r !! "vm_name")) as [name Hname].
    { apply Hnames, elem_of_app. right. by left. }
    rewrite for_each_app, Hloop. simpl. unfold getitem. rewrite Hname. simpl.
    eexists _, _. split; [done|].
    assert (∀ c, times (Some c) (hostnames (rows ++ [r]))
                 = times (Some c) (hostnames rows) + if decide (Some name = c) then 1 else 0)
      as Htimes.
    { intros c. unfold hostnames. rewrite fmap_app, times_app. simpl.
      rewrite times_singleton, Hname.
      destruct (decide (Some (Some name) = Some c)), (decide (Some name = c)); congruence. }
    split; [|split].
    + intros c. rewrite Htimes, elem_of_union, elem_of_singleton, Hseen.
      destruct (decide (Some name = c)); [split; [lia|by left]|].
      split; [intros [?|?]; [congruence|lia]|intros ?; right; lia].
    + intros c. rewrite Htimes.
      destruct (decide (Some name ∈ seen)) as [Hin|Hnotin].
      * rewrite elem_of_app, list_elem_of_singleton, Hdups. apply Hseen in Hin.
        destruct (decide (Some name = c)) as [<-|]; [split; [lia|by right]|].
        split; [intros [?|?]; [lia|congruence]|intros ?; left; lia].
      * rewrite Hdups. rewrite Hseen in Hnotin.
        destruct (decide (Some name = c)) as [<-|]; lia.
    + destruct (decide (Some name ∈ seen)); [|done].
      apply Forall_app. split; [done|]. by apply Forall_singleton.
Qed.

(** X7. On rows with host names, [_validate_uniqueness] never fails. It
    writes nothing when no host name comes twice; otherwise it writes one
    warning that lists, sorted and each once, exactly the host names that come
    more than once. *)
Theorem duplicate_names_are_reported rows :
  (∀ r : row, r ∈ rows → truthy (r !! "vm_name") = true) →
  ∃ repeated,
    _validate_uniqueness rows
    = Ok (match repeated with
          | [] => []
          | _ => [Warn ("Duplicate vm_name: " +:+ Text.join ", " repeated)]
          end) ∧
    StronglySorted Text.le repeated ∧ NoDup repeated ∧
    ∀ name, name ∈ repeated ↔ 2 ≤ times (Some (Some name)) (hostnames rows).
Proof.
  intros Hnames. unfold _validate_uniqueness.
  destruct (validate_loop rows Hnames) as (seen & dups & -> & _ & Hdups & Hsome). simpl.
  destruct dups as [|dup dups].
  - exists []. split; [done|]. split; [constructor|]. split; [constructor|].
    intros name. by rewrite <- Hdups, !elem_of_nil.
  - destruct (mapM_is_Some_2 id (elements (list_to_set (dup :: dups) : gset cell)))
      as [names Hmap].
    { apply Forall_forall. intros name Hin%elem_of_elements%elem_of_list_to_set.
      by apply (proj1 (Forall_forall _ _) Hsome). }
    rewrite Hmap. apply mapM_Some in Hmap.
    assert (elements (list_to_set (dup :: dups) : gset cell) = Some <$> names) as Helements.
    { apply list_eq_Forall2, Forall2_fmap_r.
      eapply Forall2_impl; [done|]. intros c name Hc. exact Hc. }
    assert (∀ name, name ∈ names ↔ Some name ∈ dup :: dups) as Hin.
    { intros name. rewrite <- (elem_of_list_to_set (C := gset cell)), <- elem_of_elements,
        Helements, list_elem_of_fmap.
      split; [by eauto|]. by intros (? & [= ->] & ?). }
    exists (Text.sorted names).
    assert (Text.sorted names ≠ []) as Hne.
    { destruct dup as [name|]; [|by apply Forall_cons in Hsome as [[? ?] _]].
      assert (name ∈ Text.sorted names) as Hname by (apply sorted_elem_of, Hin; left).
      intros Hempty. rewrite Hempty in Hname. by apply elem_of_nil in Hname. }
    split; [by destruct (Text.sorted names)|].
    split; [apply sorted_Sorted|]. split.
    + apply sorted_NoDup. apply (NoDup_fmap_1 Some). rewrite <- Helements.
      apply NoDup_elements.
    + intros name. by rewrite sorted_elem_of, Hin, Hdups.
Qed.

Lemma duplicate_names_are_reported_witness :
  ∃ repeated,
    _validate_uniqueness repeated_rows
    = Ok (match repeated with
          | [] => []
          | _ => [Warn ("Duplicate vm_name: " +:+ Text.join ", " repeated)]
          end) ∧
    StronglySorted Text.le repeated ∧ NoDup repeated ∧
    ∀ name, name ∈ repeated ↔ 2 ≤ times (Some (Some name)) (hostnames repeated_rows).
Proof.
  apply (duplicate_names_are_reported repeated_rows).
  intros r Hin. repeat (apply elem_of_cons in Hin as [->|Hin]; [reflexivity|]).
  apply elem_of_nil in Hin. destruct Hin.
Defined.

End duplicate_properties.

(** ** The group classifier, continued *)

Section classifier_more.
Import DynamicGrouper.
Implicit Types (gs : groups) (r : row) (hostname : cell) (g : string).

Lemma occurrences_pos g names : g ∈ names ↔ 1 ≤ occurrences g names.
Proof.
  unfold occurrences. induction names as [|name names IH]; simpl.
  - rewrite elem_of_nil. split; [done|lia].
  - rewrite filter_cons, elem_of_cons.
    destruct (decide (name = g)) as [->|Hne]; simpl; [split; [lia|by left]|].
    rewrite <- IH. split; [by intros [?|?]|by right].
Qed.

Lemma append_all_lookup_Some names hostname gs g :
  append_all names hostname gs !! g
  = if decide (g ∈ names)
    then Some (gs !!! g ++ replicate (occurrences g names) hostname)
    else gs !! g.
Proof.
  destruct (decide (g ∈ names)) as [Hin|Hnotin].
  - rewrite <- append_all_lookup. rewrite lookup_total_alt.
    revert gs. induction names as [|name names IH]; intros gs;
      [by apply elem_of_nil in Hin|].
    change (append_all (name :: names) hostname gs)
      with (append_all names hostname (append name hostname gs)).
    destruct (decide (g ∈ names)) as [?|Hnotin]; [by apply IH|].
    apply elem_of_cons in Hin as [->|?]; [|done].
    assert (∀ gs', is_Some (gs' !! name) → is_Some (append_all names hostname gs' !! name))
      as Hkeep.
    { clear. induction names as [|name' names IH]; intros gs' Hsome; [done|].
      apply IH. unfold append. destruct (decide (name' = name)) as [->|];
        [by rewrite lookup_insert_eq|by rewrite lookup_insert_ne]. }
    destruct (Hkeep (append name hostname gs)) as [hosts ->]; [|done].
    unfold append. by rewrite lookup_insert_eq.
  - revert gs. induction names as [|name names IH]; intros gs; [done|].
    apply not_elem_of_cons in Hnotin as [Hne Hnotin].
    change (append_all (name :: names) hostname gs)
      with (append_all names hostname (append name hostname gs)).
    rewrite IH by done. unfold append. by rewrite lookup_insert_ne.
Qed.

(** Why a rule puts a host in a group, read off the host's row. *)
Lemma rule_targets_reason self r targets g :
  rule_targets self r = Ok targets → g ∈ targets →
  (group_by_custom (flags self) = true ∧
   ∃ s tok, r !! "vm_groups" = Some (Some s) ∧ s ≠ "" ∧
            tok ∈ Text.split_comma s ∧ g = Text.strip tok ∧ g ≠ "") ∨
  (group_by_owner (flags self) = true ∧
   ∃ owner, r !! "vm_owner" = Some (Some owner) ∧ owner ≠ "" ∧ g = "owner_" +:+ owner) ∨
  (group_by_state (flags self) = true ∧
   ∃ raw state, r !! "vm_state" = Some (Some raw) ∧ raw ≠ "" ∧
                _normalize_state self (Some raw) = Ok state ∧ g = "state_" +:+ state).
Proof.
  unfold rule_targets, state_targets, owner_targets, custom_targets.
  intros Htargets Hg.
  destruct (group_by_state (flags self) && truthy (r !! "vm_state")) eqn:Hstate.
  - apply andb_true_iff in Hstate as [Hflag Hraw].
    destruct (r !! "vm_state") as [[raw|]|] eqn:Hcol; [|done..]. simpl in *.
    destruct (_normalize_state self (Some raw)) as [state|] eqn:Hnorm; [|done].
    simpl in Htargets. injection Htargets as <-.
    apply elem_of_app in Hg as [Hg|[Hg|Hg]%elem_of_app].
    + left. destruct (group_by_custom (flags self) && truthy (r !! "vm_groups")) eqn:Hcustom;
        [|by apply elem_of_nil in Hg].
      apply andb_true_iff in Hcustom as [Hflag' Hs].
      destruct (r !! "vm_groups") as [[s|]|]; [|done..]. simpl in *.
      apply list_elem_of_filter in Hg as [Hne (tok & -> & Htok)%list_elem_of_fmap].
      split; [done|]. exists s, tok. repeat split; try done. by intros ->.
    + right. left.
      destruct (group_by_owner (flags self) && truthy (r !! "vm_owner")) eqn:Howner;
        [|by apply elem_of_nil in Hg].
      apply andb_true_iff in Howner as [Hflag' Ho].
      destruct (r !! "vm_owner") as [[owner|]|]; [|done..]. simpl in *.
      apply list_elem_of_singleton in Hg as ->.
      split; [done|]. exists owner. repeat split; try done. by intros ->.
    + right. right. apply list_elem_of_singleton in Hg as ->.
      split; [done|]. exists raw, state. repeat split; try done. by intros ->.
  - simpl in Htargets. injection Htargets as <-. rewrite app_nil_r in Hg.
    apply elem_of_app in Hg as [Hg|Hg].
    + left. destruct (group_by_custom (flags self) && truthy (r !! "vm_groups")) eqn:Hcustom;
        [|by apply elem_of_nil in Hg].
      apply andb_true_iff in Hcustom as [Hflag' Hs].
      destruct (r !! "vm_groups") as [[s|]|]; [|done..]. simpl in *.
      apply list_elem_of_filter in Hg as [Hne (tok & -> & Htok)%list_elem_of_fmap].
      split; [done|]. exists s, tok. repeat split; try done. by intros ->.
    + right. left.
      destruct (group_by_owner (flags self) && truthy (r !! "vm_owner")) eqn:Howner;
        [|by apply elem_of_nil in Hg].
      apply andb_true_iff in Howner as [Hflag' Ho].
      destruct (r !! "vm_owner") as [[owner|]|]; [|done..]. simpl in *.
      apply list_elem_of_singleton in Hg as ->.
      split; [done|]. exists owner. repeat split; try done. by intros ->.
Qed.

Lemma rule_targets_named self r targets g :
  rule_targets self r = Ok targets → g ∈ targets → g ≠ "".
Proof.
  intros Htargets Hg.
  destruct (rule_targets_reason _ _ _ _ Htargets Hg)
    as [(_ & ? & ? & _ & _ & _ & _ & ?)|[(_ & ? & _ & _ & ->)|(_ & ? & ? & _ & _ & _ & ->)]];
    done.
Qed.

Lemma groups_members_from self rows gs0 gs g hostname :
  for_each (group_row self) gs0 rows = Ok gs → hostname ∈ gs !!! g →
  hostname ∈ gs0 !!! g ∨ ∃ r, r ∈ rows ∧ r !! "vm_name" = Some hostname.
Proof.
  intros Hrun. revert g hostname. revert Hrun.
  apply (for_each_invariant
           (λ gs : groups, ∀ g hostname, hostname ∈ gs !!! g →
              hostname ∈ gs0 !!! g ∨ ∃ r, r ∈ rows ∧ r !! "vm_name" = Some hostname));
    [|by left].
  intros gs1 r gs2 Hin Hinv (hostname' & targets & Hname & _ & ->)%group_row_Ok g hostname.
  rewrite append_all_lookup.
  intros [?| ->%elem_of_replicate_inv]%elem_of_app; [by apply Hinv|]. right. eauto.
Qed.

Lemma for_each_Ok_member {S A} (body : S → A → result S) l s0 s x :
  for_each body s0 l = Ok s → x ∈ l → ∃ s1 s2, body s1 x = Ok s2.
Proof.
  revert s0. induction l as [|y l IH]; intros s0 Hrun Hin; [by apply elem_of_nil in Hin|].
  apply for_each_cons_Ok in Hrun as (s1 & Hy & Hrun).
  apply elem_of_cons in Hin as [->|Hin]; [by eauto|]. by eapply IH.
Qed.

(** X8. With the three rules disabled the classifier makes one group,
    [ungrouped], holding the host name of every row in row order (and no group
    at all when there is no row); it does not look at the state map. *)
Theorem disabled_rules_leave_ungrouped self rows names :
  group_by_custom (flags self) = false → group_by_owner (flags self) = false →
  group_by_state (flags self) = false →
  Forall2 (λ (r : row) name, r !! "vm_name" = Some name) rows names →
  generate_groups self rows
  = Ok (match names with [] => ∅ | _ => {[ "ungrouped" := names ]} end).
Proof.
  intros Hcustom Howner Hstate. revert names.
  induction rows as [|r rows IH] using rev_ind; intros names Hnames.
  - by apply Forall2_nil_inv_l in Hnames as ->.
  - apply Forall2_app_inv_l in Hnames as (names' & last & Hnames & Hlast & ->).
    apply Forall2_cons_inv_l in Hlast as (name & ? & Hname & ->%Forall2_nil_inv_l & ->).
    unfold generate_groups in *. rewrite for_each_app, (IH _ Hnames). simpl.
    unfold group_row, getitem, state_rule, owner_rule, custom_rule, default_rule.
    rewrite Hname, Hcustom, Howner, Hstate. simpl. f_equal.
    destruct names' as [|name' names']; simpl.
    + unfold in_vm_group. rewrite map_to_list_empty. simpl.
      unfold append. by rewrite lookup_total_empty, insert_empty.
    + unfold in_vm_group. rewrite map_to_list_singleton. simpl.
      unfold append. by rewrite lookup_total_singleton, insert_singleton_eq.
Qed.

Lemma disabled_rules_leave_ungrouped_witness :
  generate_groups (no_rules (NotDict TList)) [web_row; ab_row]
  = Ok {[ "ungrouped" := [Some "vm1"; Some "vm1"] ]}.
Proof.
  apply (disabled_rules_leave_ungrouped (no_rules (NotDict TList)) [web_row; ab_row]
           [Some "vm1"; Some "vm1"]); [reflexivity..|].
  repeat constructor.
Defined.

(** X9. In the classifier's result no group has an empty name or an empty
    host list, and every host of a group is the host name of some row. *)
Theorem groups_are_inhabited self rows gs g hosts :
  generate_groups self rows = Ok gs → gs !! g = Some hosts →
  g ≠ "" ∧ hosts ≠ [] ∧
  ∀ hostname, hostname ∈ hosts → ∃ r, r ∈ rows ∧ r !! "vm_name" = Some hostname.
Proof.
  intros Hrun Hg.
  assert (g ≠ "" ∧ hosts ≠ []) as [? ?].
  { revert g hosts Hg. revert Hrun.
    apply (for_each_invariant
             (λ gs : groups, ∀ g hosts, gs !! g = Some hosts → g ≠ "" ∧ hosts ≠ []));
      [|by intros g hosts; rewrite lookup_empty].
    intros gs1 r gs2 _ Hinv (hostname & targets & Hname & Htargets & ->)%group_row_Ok g hosts.
    rewrite append_all_lookup_Some.
    destruct (decide (g ∈ _)) as [Hin|_]; [|by apply Hinv].
    intros [= <-]. split.
    - apply elem_of_app in Hin as [Hin|Hin]; [by eapply rule_targets_named|].
      destruct (in_vm_group _ _); [by apply elem_of_nil in Hin|].
      by apply list_elem_of_singleton in Hin as ->.
    - apply occurrences_pos in Hin.
      destruct (occurrences g _); [lia|]. simpl. by destruct (gs1 !!! g). }
  split; [done|]. split; [done|]. intros hostname Hin.
  destruct (groups_members_from self rows ∅ gs g hostname Hrun) as [Hempty|?]; [|..|done].
  - by rewrite (lookup_total_correct _ _ _ Hg).
  - rewrite lookup_total_empty in Hempty. by apply elem_of_nil in Hempty.
Qed.

Lemma groups_are_inhabited_witness :
  "web" ≠ "" ∧ [Some "vm1"] ≠ [] ∧
  ∀ hostname, hostname ∈ [Some "vm1"] →
    ∃ r, r ∈ [web_row] ∧ r !! "vm_name" = Some hostname.
Proof.
  apply (groups_are_inhabited all_rules [web_row] web_groups "web" [Some "vm1"]);
    reflexivity.
Defined.

End classifier_more.

Section classifier_reasons.
Import DynamicGrouper.
Implicit Types (gs : groups) (r : row) (hostname : cell) (g : string).

Lemma generate_groups_target self rows gs r hostname targets g :
  generate_groups self rows = Ok gs → r ∈ rows → r !! "vm_name" = Some hostname →
  rule_targets self r = Ok targets → g ∈ targets → hostname ∈ gs !!! g.
Proof.
  intros Hrun Hin Hname Htargets Hg.
  apply (generate_groups_row (λ gs, hostname ∈ gs !!! g) self rows ∅ gs r); [| |done..].
  - intros gs1 gs2 Hrow. by eapply group_row_target.
  - intros gs1 gs2 r' Hh Hrow. eapply prefix_elem_of; [|done]. by eapply group_row_grows.
Qed.

Lemma generate_groups_rule_targets self rows gs r :
  generate_groups self rows = Ok gs → r ∈ rows → ∃ targets, rule_targets self r = Ok targets.
Proof.
  intros Hrun Hin.
  destruct (for_each_Ok_member _ _ _ _ _ Hrun Hin) as (gs1 & gs2 & Hrow).
  apply group_row_Ok in Hrow as (_ & targets & _ & ? & _). eauto.
Qed.

(** X10. With owner classification on, a row with a non-empty owner has its
    host in the group [owner_] followed by the owner as the column has it; with
    state classification on, a row with a non-empty power-state has its host in
    the group [state_] followed by the normalized state. *)
Theorem owner_and_state_groups self rows gs r hostname :
  generate_groups self rows = Ok gs → r ∈ rows → r !! "vm_name" = Some hostname →
  (group_by_owner (flags self) = true →
   ∀ owner, r !! "vm_owner" = Some (Some owner) → owner ≠ "" →
            hostname ∈ gs !!! ("owner_" +:+ owner)) ∧
  (group_by_state (flags self) = true →
   ∀ raw, r !! "vm_state" = Some (Some raw) → raw ≠ "" →
          ∃ state, _normalize_state self (Some raw) = Ok state ∧
                   hostname ∈ gs !!! ("state_" +:+ state)).
Proof.
  intros Hrun Hin Hname.
  destruct (generate_groups_rule_targets _ _ _ _ Hrun Hin) as [targets Htargets].
  pose proof Htargets as Htargets'.
  unfold rule_targets, state_targets, owner_targets in Htargets'. split.
  - intros Hflag owner Hcol Hne.
    eapply generate_groups_target; [done..|].
    rewrite Hflag, Hcol in Htargets'. simpl in Htargets'.
    destruct (String.eqb_spec owner ""); [done|]. simpl in Htargets'.
    destruct (if group_by_state _ && _ then _ else _); [|done].
    injection Htargets' as <-. apply elem_of_app. right. by left.
  - intros Hflag raw Hcol Hne.
    rewrite Hflag, Hcol in Htargets'. simpl in Htargets'.
    destruct (String.eqb_spec raw ""); [done|]. simpl in Htargets'.
    destruct (_normalize_state self (Some raw)) as [state|]; [|done].
    exists state. split; [done|].
    eapply generate_groups_target; [done..|].
    injection Htargets' as <-. rewrite !elem_of_app. right. right. by left.
Qed.

Lemma owner_and_state_groups_witness :
  ∃ gs, generate_groups all_rules [vm_row] = Ok gs ∧
        Some "vm1" ∈ gs !!! ("owner_" +:+ "Al,ice") ∧
        ∃ state, _normalize_state all_rules (Some "Off") = Ok state ∧
                 Some "vm1" ∈ gs !!! ("state_" +:+ state).
Proof.
  assert (is_Ok (generate_groups all_rules [vm_row]) = true)
    as [gs Hrun]%is_Ok_inv by reflexivity.
  exists gs. split; [exact Hrun|].
  destruct (owner_and_state_groups all_rules [vm_row] gs vm_row (Some "vm1") Hrun)
    as [Howner Hstate]; [by left|reflexivity|].
  split.
  - apply Howner; [reflexivity|reflexivity|discriminate].
  - apply Hstate; [reflexivity|reflexivity|discriminate].
Defined.

(** X11. A host is in a group only for a reason found in a row of that host
    name: the group is [ungrouped], or an enabled rule names it, as a trimmed
    non-empty token of the row's custom-group column, as [owner_] followed by
    the row's owner, or as [state_] followed by the row's normalized state. *)
Theorem group_membership_has_a_reason self rows gs g hostname :
  generate_groups self rows = Ok gs → hostname ∈ gs !!! g →
  ∃ r, r ∈ rows ∧ r !! "vm_name" = Some hostname ∧
    (g = "ungrouped" ∨
     (group_by_custom (flags self) = true ∧
      ∃ s tok, r !! "vm_groups" = Some (Some s) ∧ s ≠ "" ∧
               tok ∈ Text.split_comma s ∧ g = Text.strip tok ∧ g ≠ "") ∨
     (group_by_owner (flags self) = true ∧
      ∃ owner, r !! "vm_owner" = Some (Some owner) ∧ owner ≠ "" ∧ g = "owner_" +:+ owner) ∨
     (group_by_state (flags self) = true ∧
      ∃ raw state, r !! "vm_state" = Some (Some raw) ∧ raw ≠ "" ∧
                   _normalize_state self (Some raw) = Ok state ∧ g = "state_" +:+ state)).
Proof.
  intros Hrun. revert g hostname. revert Hrun.
  apply (for_each_invariant
           (λ gs : groups, ∀ g hostname, hostname ∈ gs !!! g →
              ∃ r, r ∈ rows ∧ r !! "vm_name" = Some hostname ∧ (g = "ungrouped" ∨ _)));
    [|by intros g hostname; rewrite lookup_total_empty; intros ?%elem_of_nil].
  intros gs1 r gs2 Hin Hinv (hostname' & targets & Hname & Htargets & ->)%group_row_Ok g hostname.
  rewrite append_all_lookup.
  intros [?|[-> Hocc]%elem_of_replicate]%elem_of_app; [by apply Hinv|].
  exists r. split; [done|]. split; [done|].
  assert (g ∈ targets ++ (if in_vm_group hostname' (append_all targets hostname' gs1)
                          then [] else ["ungrouped"])) as Hg
    by (apply occurrences_pos; lia).
  apply elem_of_app in Hg as [Hg|Hg].
  - right. by eapply rule_targets_reason.
  - left. destruct (in_vm_group _ _); [by apply elem_of_nil in Hg|].
    by apply list_elem_of_singleton in Hg.
Qed.

Lemma group_membership_has_a_reason_witness :
  ∃ r, r ∈ [web_row] ∧ r !! "vm_name" = Some (Some "vm1") ∧
    ("db" = "ungrouped" ∨
     (group_by_custom (flags all_rules) = true ∧
      ∃ s tok, r !! "vm_groups" = Some (Some s) ∧ s ≠ "" ∧
               tok ∈ Text.split_comma s ∧ "db" = Text.strip tok ∧ "db" ≠ "") ∨
     (group_by_owner (flags all_rules) = true ∧
      ∃ owner, r !! "vm_owner" = Some (Some owner) ∧ owner ≠ "" ∧ "db" = "owner_" +:+ owner) ∨
     (group_by_state (flags all_rules) = true ∧
      ∃ raw state, r !! "vm_state" = Some (Some raw) ∧ raw ≠ "" ∧
                   _normalize_state all_rules (Some raw) = Ok state ∧
                   "db" = "state_" +:+ state)).
Proof.
  apply (group_membership_has_a_reason all_rules [web_row] web_groups "db" (Some "vm1")).
  - reflexivity.
  - left.
Defined.

(** X12. When the host names of the rows are pairwise distinct, a row with
    a custom group whose name starts with [vm_] keeps its host out of
    [ungrouped], provided custom-group classification is on and no token of the
    row is itself [ungrouped]. *)
Theorem vm_group_keeps_out_of_ungrouped self rows gs r hostname s tok :
  generate_groups self rows = Ok gs → NoDup (hostnames rows) →
  group_by_custom (flags self) = true →
  r ∈ rows → r !! "vm_name" = Some hostname → r !! "vm_groups" = Some (Some s) →
  tok ∈ Text.split_comma s → Text.startswith "vm_" (Text.strip tok) = true →
  (∀ tok', tok' ∈ Text.split_comma s → Text.strip tok' ≠ "ungrouped") →
  hostname ∉ gs !!! "ungrouped".
Proof.
  intros Hrun Hnodup Hflag Hin Hname Hcol Htok Hvm Hother.
  apply list_elem_of_split in Hin as (before & after & ->).
  unfold hostnames in Hnodup. rewrite fmap_app, fmap_cons, Hname in Hnodup.
  apply NoDup_app in Hnodup as (_ & Hbefore & [Hafter _]%NoDup_cons).
  unfold generate_groups in Hrun. rewrite for_each_app in Hrun.
  destruct (for_each (group_row self) ∅ before) as [gs0|] eqn:Hrun0; [|done].
  simpl in Hrun. apply for_each_cons_Ok in Hrun as (gs1 & Hrow & Hrun).
  assert (hostname ∉ gs0 !!! "ungrouped") as Hgs0.
  { intros Hh. destruct (groups_members_from _ _ _ _ _ _ Hrun0 Hh) as [Hempty|(r' & Hr' & Hname')].
    - rewrite lookup_total_empty in Hempty. by apply elem_of_nil in Hempty.
    - apply (Hbefore (Some hostname)); [|by left].
      rewrite <- Hname'. by apply list_elem_of_fmap_2. }
  assert (hostname ∉ gs1 !!! "ungrouped") as Hgs1.
  { apply group_row_Ok in Hrow as (hostname' & targets & Hname' & Htargets & ->).
    assert (hostname' = hostname) as -> by congruence.
    assert (Text.strip tok ∈ targets) as Htarget.
    { unfold rule_targets in Htargets. destruct (state_targets self r); [|done].
      injection Htargets as <-. apply elem_of_app. left.
      eapply custom_token_target; [done..|]. intros Hempty. by rewrite Hempty in Hvm. }
    assert (in_vm_group hostname (append_all targets hostname gs0) = true) as ->.
    { apply in_vm_group_spec. exists (Text.strip tok). split; [done|].
      rewrite append_all_lookup. apply elem_of_app. right.
      apply elem_of_replicate. split; [done|]. apply occurrences_pos in Htarget. lia. }
    rewrite app_nil_r, append_all_lookup.
    assert ("ungrouped" ∉ targets) as Hnot.
    { intros Hu. destruct (rule_targets_reason _ _ _ _ Htargets Hu)
        as [(_ & s' & tok' & Hcol' & _ & Htok' & Heq & _)|[(_ & ? & _ & _ & ?)|(_ & ? & ? & _ & _ & _ & ?)]];
        [|done..].
      rewrite Hcol in Hcol'. injection Hcol' as <-. by apply (Hother tok'). }
    assert (occurrences "ungrouped" targets = 0) as ->.
    { destruct (occurrences "ungrouped" targets) eqn:Hocc; [done|].
      exfalso. apply Hnot, occurrences_pos. lia. }
    by rewrite app_nil_r. }
  intros Hh. destruct (groups_members_from _ _ _ _ _ _ Hrun Hh) as [?|(r' & Hr' & Hname')];
    [done|].
  apply Hafter. rewrite <- Hname'. by apply list_elem_of_fmap_2.
Qed.

Lemma vm_group_keeps_out_of_ungrouped_witness :
  ∃ gs, generate_groups all_rules [plain_row; vm_row] = Ok gs ∧
        Some "vm1" ∉ gs !!! "ungrouped".
Proof.
  assert (is_Ok (generate_groups all_rules [plain_row; vm_row]) = true)
    as [gs Hrun]%is_Ok_inv by reflexivity.
  exists gs. split; [exact Hrun|].
  apply (vm_group_keeps_out_of_ungrouped all_rules [plain_row; vm_row] gs vm_row
           (Some "vm1") "vm_web" "vm_web" Hrun).
  - apply (bool_decide_unpack _). reflexivity.
  - reflexivity.
  - right. left.
  - reflexivity.
  - reflexivity.
  - left.
  - reflexivity.
  - intros tok' Htok'. apply list_elem_of_singleton in Htok' as ->. discriminate.
Defined.

End classifier_reasons.

(** ** The inventory assembler, continued *)

Section assembler_properties.
Import AnsibleInventoryBuilder.

(** What the first loop of [build] stores for a row. *)
Lemma build_row_vars self st r st' :
  build_row self st r = Ok st' →
  ∃ hostname vars,
    r !! "vm_name" = Some hostname ∧ st'.1 = <[hostname := vars]> st.1 ∧
    vars !! "ansible_host" = Some (default (Some "") (r !! "vm_ip_addr")) ∧
    (∀ raw, r !! "vm_state" = Some raw →
            ∃ state, _normalize_state self raw = Ok state ∧
                     vars !! "vmware_state" = Some (Some state)) ∧
    (r !! "vm_state" = None → vars !! "vmware_state" = r !! "vmware_state") ∧
    (∀ k, k ≠ "ansible_host" → k ≠ "vmware_state" → vars !! k = r !! k).
Proof.
  unfold build_row, getitem.
  destruct (r !! "vm_name") as [hostname|]; simpl; [|done].
  destruct (r !! "vm_state") as [raw|] eqn:Hstate; simpl.
  - destruct (_normalize_state self raw) as [state|] eqn:Hnorm; simpl; [|done].
    intros [= <-]. eexists hostname, _. split; [done|]. split; [done|].
    split; [by rewrite lookup_insert_ne, lookup_insert_eq|]. split; [|split; [done|]].
    + intros ? [= <-]. exists state. split; [done|]. by rewrite lookup_insert_eq.
    + intros k ? ?. by rewrite !lookup_insert_ne.
  - intros [= <-]. eexists hostname, _. split; [done|]. split; [done|].
    split; [by rewrite lookup_insert_eq|]. split; [done|]. split.
    + intros _. by rewrite lookup_insert_ne.
    + intros k ? ?. by rewrite lookup_insert_ne.
Qed.

Lemma build_rows_vars_last self before r after st st' hostname :
  for_each (build_row self) st (before ++ r :: after) = Ok st' →
  r !! "vm_name" = Some hostname →
  (∀ r', r' ∈ after → r' !! "vm_name" ≠ Some hostname) →
  ∃ st0 st1,
    for_each (build_row self) st before = Ok st0 ∧ build_row self st0 r = Ok st1 ∧
    st'.1 !! hostname = st1.1 !! hostname.
Proof.
  rewrite for_each_app. intros Hrun Hname Hafter.
  destruct (for_each (build_row self) st before) as [st0|]; [|done]. simpl in Hrun.
  apply for_each_cons_Ok in Hrun as (st1 & Hrow & Hrun).
  exists st0, st1. split; [done|]. split; [done|].
  revert Hrun. apply (for_each_invariant (λ st', st'.1 !! hostname = st1.1 !! hostname));
    [|done].
  intros st2 r' st3 Hin Hinv (hostname' & ? & Hname' & -> & _)%build_row_vars.
  rewrite lookup_insert_ne; [done|]. intros ->. by apply (Hafter r').
Qed.

Lemma build_meta_hostvars self rows inv hostvars :
  build self rows = Ok inv → inv !! "_meta" = Some (Meta hostvars) →
  ∃ index, for_each (build_row self) (∅, ∅) rows = Ok (hostvars, index).
Proof.
  intros (hostvars' & index & gs & inv1 & Hrows & _ & Hloop & ->)%build_Ok.
  rewrite lookup_insert_ne by done. intros Hmeta. exists index.
  destruct (build_groups_loop _ _ _ _ Hloop) as [Hlisted Hkept].
  destruct (decide ("_meta" ∈ Text.sorted (elements (dom gs)))) as [Hin|Hnotin].
  - destruct (Hlisted _ Hin) as (hosts & _ & Hentry). congruence.
  - rewrite (Hkept _ Hnotin), lookup_singleton_eq in Hmeta. congruence.
Qed.

(** X13. In a document that has [_meta.hostvars], the variables of a host
    are those of the last row with that host name: every column of the row as
    it is, except that [ansible_host] is the row's IP address (the empty string
    without the column) and, when the row has a power-state column,
    [vmware_state] is its normalized state; a column named [ansible_host] or
    [vmware_state] is overwritten by the computed value. *)
Theorem hostvars_overlay_the_row self before r after inv hostvars hostname :
  build self (before ++ r :: after) = Ok inv →
  inv !! "_meta" = Some (Meta hostvars) →
  r !! "vm_name" = Some hostname →
  (∀ r', r' ∈ after → r' !! "vm_name" ≠ Some hostname) →
  ∃ vars,
    hostvars !! hostname = Some vars ∧
    vars !! "ansible_host" = Some (default (Some "") (r !! "vm_ip_addr")) ∧
    (∀ raw, r !! "vm_state" = Some raw →
            ∃ state, _normalize_state self raw = Ok state ∧
                     vars !! "vmware_state" = Some (Some state)) ∧
    (r !! "vm_state" = None → vars !! "vmware_state" = r !! "vmware_state") ∧
    (∀ k, k ≠ "ansible_host" → k ≠ "vmware_state" → vars !! k = r !! k).
Proof.
  intros Hbuild Hmeta Hname Hafter.
  destruct (build_meta_hostvars _ _ _ _ Hbuild Hmeta) as [index Hrows].
  destruct (build_rows_vars_last _ _ _ _ _ _ _ Hrows Hname Hafter)
    as (st0 & st1 & _ & Hrow & Hlast).
  apply build_row_vars in Hrow as (hostname' & vars & Hname' & Hst1 & Hvars).
  assert (hostname' = hostname) as -> by congruence.
  exists vars. split; [|done]. simpl in Hlast. by rewrite Hlast, Hst1, lookup_insert_eq.
Qed.

Lemma hostvars_overlay_the_row_witness :
  ∃ inv hostvars vars,
    build all_rules_builder ([plain_row] ++ shadow_row :: []) = Ok inv ∧
    inv !! "_meta" = Some (Meta hostvars) ∧
    hostvars !! Some "vm1" = Some vars ∧
    vars !! "ansible_host" = Some (Some "10.0.0.1") ∧
    vars !! "vmware_state" = Some (Some "absent") ∧
    vars !! "note" = Some (Some "kept").
Proof.
  assert (∃ inv hostvars, build all_rules_builder ([plain_row] ++ shadow_row :: []) = Ok inv ∧
                          inv !! "_meta" = Some (Meta hostvars))
    as (inv & hostvars & Hbuild & Hmeta) by (eexists _, _; split; reflexivity).
  destruct (hostvars_overlay_the_row all_rules_builder [plain_row] shadow_row [] inv hostvars
              (Some "vm1") Hbuild Hmeta) as (vars & Hvars & Hhost & Hstate & _ & Hother).
  - reflexivity.
  - intros r' Hin%elem_of_nil. destruct Hin.
  - exists inv, hostvars, vars. split; [exact Hbuild|]. split; [exact Hmeta|].
    split; [exact Hvars|]. split; [exact Hhost|]. split.
    + destruct (Hstate (Some "del")) as (state & Hnorm & Hvm); [reflexivity|].
      injection Hnorm as <-. exact Hvm.
    + rewrite Hother; [reflexivity|discriminate..].
Defined.

Lemma sorted_cells_spec l l' :
  sorted_cells l = Ok l' →
  l' ≡ₚ l ∧ ∀ names, l' = Some <$> names → StronglySorted Text.le names.
Proof.
  unfold sorted_cells. destruct l as [|c1 [|c2 l]].
  - intros [= <-]. split; [done|]. intros [|? ?] ?; [constructor|done].
  - intros [= <-]. split; [done|]. intros [|? [|? ?]] ?; [constructor| |done].
    by repeat constructor.
  - destruct (mapM id (c1 :: c2 :: l)) as [names0|] eqn:Hnames; [|done].
    intros [= <-]. apply mapM_Some in Hnames.
    assert (c1 :: c2 :: l = Some <$> names0) as ->.
    { apply list_eq_Forall2, Forall2_fmap_r.
      eapply Forall2_impl; [done|]. intros c name Hc. exact Hc. }
    split.
    + apply fmap_Permutation. apply merge_sort_Permutation.
    + intros names Heq. apply (inj (fmap Some)) in Heq as <-. apply sorted_Sorted.
Qed.

(** X14. The document has the keys [_meta] and [all] and one key per group
    of the classifier, nothing else. [all.children] lists the group names
    sorted, each once. Under every group name other than [all] stands the
    group's host list, the same hosts in sorted order. *)
Theorem document_lists_the_groups self rows inv :
  build self rows = Ok inv →
  ∃ gs children index,
    DynamicGrouper.generate_groups (grouper self) rows = Ok gs ∧
    inv !! "all" = Some (All children index) ∧
    StronglySorted Text.le children ∧ NoDup children ∧
    (∀ g, g ∈ children ↔ is_Some (gs !! g)) ∧
    (∀ k, is_Some (inv !! k) ↔ k = "_meta" ∨ k = "all" ∨ is_Some (gs !! k)) ∧
    (∀ g, is_Some (gs !! g) → g ≠ "all" →
          ∃ hosts, inv !! g = Some (Hosts hosts) ∧ hosts ≡ₚ gs !!! g ∧
                   ∀ names, hosts = Some <$> names → StronglySorted Text.le names).
Proof.
  intros (hostvars & index & gs & inv1 & _ & Hgroups & Hloop & ->)%build_Ok.
  exists gs, (Text.sorted (elements (dom gs))), index.
  destruct (build_groups_loop _ _ _ _ Hloop) as [Hlisted Hkept].
  assert (∀ g, g ∈ Text.sorted (elements (dom gs)) ↔ is_Some (gs !! g)) as Hchildren.
  { intros g. by rewrite sorted_elem_of, elem_of_elements, elem_of_dom. }
  split; [done|]. split; [by rewrite lookup_insert_eq|]. split; [apply sorted_Sorted|].
  split; [apply sorted_NoDup, NoDup_elements|]. split; [done|]. split.
  - intros k. destruct (decide (k = "all")) as [->|Hall].
    { rewrite lookup_insert_eq. split; [by auto|by eexists]. }
    rewrite lookup_insert_ne by done.
    destruct (decide (k ∈ Text.sorted (elements (dom gs)))) as [Hin|Hnotin].
    + destruct (Hlisted _ Hin) as (hosts & _ & ->). apply Hchildren in Hin.
      split; [by auto|by eexists].
    + rewrite (Hkept _ Hnotin). rewrite Hchildren in Hnotin.
      destruct (decide (k = "_meta")) as [->|Hmeta].
      * rewrite lookup_singleton_eq. split; [by auto|by eexists].
      * rewrite lookup_singleton_ne by done. split; [by intros [? ?]|].
        intros [?|[?|?]]; done.
  - intros g Hg Hall. destruct (Hlisted g) as (hosts & Hsorted & Hentry); [by apply Hchildren|].
    exists hosts. split; [by rewrite lookup_insert_ne|].
    by apply sorted_cells_spec.
Qed.

Lemma document_lists_the_groups_witness :
  ∃ inv gs children index,
    build all_rules_builder [vm_row; plain_row] = Ok inv ∧
    DynamicGrouper.generate_groups (grouper all_rules_builder) [vm_row; plain_row] = Ok gs ∧
    inv !! "all" = Some (All children index) ∧
    StronglySorted Text.le children ∧ NoDup children ∧
    (∀ g, g ∈ children ↔ is_Some (gs !! g)) ∧
    (∀ k, is_Some (inv !! k) ↔ k = "_meta" ∨ k = "all" ∨ is_Some (gs !! k)) ∧
    (∀ g, is_Some (gs !! g) → g ≠ "all" →
          ∃ hosts, inv !! g = Some (Hosts hosts) ∧ hosts ≡ₚ gs !!! g ∧
                   ∀ names, hosts = Some <$> names → StronglySorted Text.le names).
Proof.
  assert (is_Ok (build all_rules_builder [vm_row; plain_row]) = true)
    as [inv Hbuild]%is_Ok_inv by reflexivity.
  exists inv. destruct (document_lists_the_groups _ _ _ Hbuild) as (gs & children & index & H).
  exists gs, children, index. split; [exact Hbuild|exact H].
Defined.

End assembler_properties.

(** ** The orchestrator, continued *)

Section run_properties.
Import Application.













Lemma load_state_map_Raise_inv w e :
  EnvConfig._load_state_map w = Raise e →
  ∃ raw, environ w !! "INV_STATE_MAP" = Some raw ∧ raw ≠ "" ∧
         json_loads w raw = Raise e ∧ ∀ msg, e ≠ JSONDecodeError msg.
Proof.
  unfold EnvConfig._load_state_map, EnvConfig.getenv.
  destruct (environ w !! "INV_STATE_MAP") as [raw|]; [|done].
  destruct (String.eqb_spec raw "") as [->|Hraw]; simpl; [done|].
  destruct (json_loads w raw) as [parsed|e'] eqn:Hjson; [done|].
  intros Hraise. exists raw. split; [done|]. split; [done|].
  destruct e'; try done; injection Hraise as <-; by split.
Qed.

(** X22. When [json.loads] raises another exception than [JSONDecodeError]
    on the text of [INV_STATE_MAP], the run ends at the configuration, in the
    [except] clause for that exception: nothing is printed, a [ValueError]
    gives an [ERROR] line and exit code 2, an exception that is neither a
    [ValueError] nor a [FileNotFoundError] a [FATAL] line and exit code 1; the
    files play no part. *)
Theorem config_failure_ends_run w a raw e :
  environ w !! "INV_STATE_MAP" = Some raw → raw ≠ "" →
  json_loads w raw = Raise e → (∀ msg, e ≠ JSONDecodeError msg) →
  config w a = Raise e ∧
  stdout (run w (Parsed a)) = [] ∧
  (∀ msg, e = ValueError msg → run w (Parsed a) = Outcome [] [Error msg] 2) ∧
  (unexpected e = false → ∃ msg, run w (Parsed a) = Outcome [] [Error msg] 2) ∧
  (unexpected e = true → run w (Parsed a) = Outcome [] [Fatal e] 1) ∧
  (∀ files stream,
     run (World (environ w) (json_loads w) (resolve w) (script_dir_csv w) files stream)
         (Parsed a)
     = run w (Parsed a)).
Proof.
  intros Henv Hraw Hjson He.
  pose proof (config_Raise w a e (load_state_map_Raise w raw e Henv Hraw Hjson He)) as Hcfg.
  rewrite (run_config_Raise _ _ _ Hcfg). split; [done|]. split; [apply handler_stdout|].
  split; [by intros msg ->|]. split; [destruct e; simpl; by eauto|].
  split; [by destruct e|].
  intros files stream. apply run_config_Raise, config_Raise.
  by apply (load_state_map_Raise _ raw).
Qed.

Lemma config_failure_ends_run_witness :
  run nested_world (Parsed (Args false None None))
  = Outcome [] [Fatal (RecursionError "maximum recursion depth exceeded")] 1.
Proof.
  assert (environ nested_world !! "INV_STATE_MAP" = Some "[[[[") as Henv by reflexivity.
  assert ("[[[[" ≠ "") as Hraw by discriminate.
  assert (∀ msg, RecursionError "maximum recursion depth exceeded" ≠ JSONDecodeError msg)
    as He by discriminate.
  destruct (config_failure_ends_run nested_world (Args false None None) "[[[["
              (RecursionError "maximum recursion depth exceeded") Henv Hraw eq_refl He)
    as (_ & _ & _ & _ & Hfatal & _).
  apply Hfatal. reflexivity.
Defined.



(** X17. When [sys.stdout] takes every text, asking for a host changes
    neither the diagnostics nor the exit code of a run, and the run prints a
    document with [--host] exactly when it prints one without: the inventory
    is loaded, checked and assembled in full before the host is looked at. *)
Theorem host_request_keeps_diagnostics w a host1 host2 :
  (∀ doc, print_raises w doc = None) →
  stderr (run w (Parsed (with_host a host1))) = stderr (run w (Parsed (with_host a host2))) ∧
  exit_code (run w (Parsed (with_host a host1)))
  = exit_code (run w (Parsed (with_host a host2))) ∧
  length (stdout (run w (Parsed (with_host a host1))))
  = length (stdout (run w (Parsed (with_host a host2)))).
Proof.
  intros Hprint. unfold run, pipeline.
  change (config w (with_host a host1)) with (config w a).
  change (config w (with_host a host2)) with (config w a).
  destruct (config w a) as [cfg|e]; [|done].
  destruct (CSVReader.read w reader (csv_path w cfg)) as [[rows warnings]|e]; [|done].
  destruct (AnsibleInventoryBuilder.build (builder w cfg) rows) as [inv|e]; [|done].
  by rewrite !Hprint.
Qed.

Lemma host_request_keeps_diagnostics_witness :
  stderr (run (sample_world ∅ untidy_csv) (Parsed (Args false (Some "vm2") None)))
  = stderr (run (sample_world ∅ untidy_csv) (Parsed (Args false None None))) ∧
  exit_code (run (sample_world ∅ untidy_csv) (Parsed (Args false (Some "vm2") None)))
  = exit_code (run (sample_world ∅ untidy_csv) (Parsed (Args false None None))) ∧
  length (stdout (run (sample_world ∅ untidy_csv) (Parsed (Args false (Some "vm2") None))))
  = length (stdout (run (sample_world ∅ untidy_csv) (Parsed (Args false None None)))).
Proof.
  apply (host_request_keeps_diagnostics (sample_world ∅ untidy_csv) (Args false None None)
           (Some "vm2") None).
  intros doc. reflexivity.
Defined.

End run_properties.

(** ** Flags, and runs that succeed *)

Section flag_properties.
Import DynamicGrouper.

Lemma for_each_fmap_ext {S A} (body : S → A → result S) (f : A → A) s l :
  (∀ s x, body s (f x) = body s x) → for_each body s (f <$> l) = for_each body s l.
Proof.
  intros Hext. revert s. induction l as [|x l IH]; intros s; simpl; [done|].
  rewrite Hext. destruct (body s x); simpl; [apply IH|done].
Qed.

(** X18. A disabled rule does not look at its column: with custom-group,
    owner or state classification off, the classifier's result is the same with
    the column [vm_groups], [vm_owner] or [vm_state] removed from every row. *)
Theorem disabled_rule_ignores_its_column self rows :
  (group_by_custom (flags self) = false →
   generate_groups self (delete "vm_groups" <$> rows) = generate_groups self rows) ∧
  (group_by_owner (flags self) = false →
   generate_groups self (delete "vm_owner" <$> rows) = generate_groups self rows) ∧
  (group_by_state (flags self) = false →
   generate_groups self (delete "vm_state" <$> rows) = generate_groups self rows).
Proof.
  unfold generate_groups. split; [|split]; intros Hflag; apply for_each_fmap_ext;
    intros gs r;
    unfold group_row, getitem, state_rule, owner_rule, custom_rule;
    rewrite Hflag; simpl; rewrite ?lookup_delete_ne by done; reflexivity.
Qed.

Lemma disabled_rule_ignores_its_column_witness :
  generate_groups no_owner_rule (delete "vm_owner" <$> [vm_row; plain_row])
  = generate_groups no_owner_rule [vm_row; plain_row].
Proof.
  apply (proj1 (proj2 (disabled_rule_ignores_its_column no_owner_rule [vm_row; plain_row]))).
  reflexivity.
Defined.

(** X19. Each rule is on when its variable is unset or holds one of [1],
    [true], [yes], [on] in any letter case, and off for every other value, the
    empty string included; the classifier of a run works with these flags. *)
Theorem environment_sets_the_flags w cfg :
  flags (Application.grouper w cfg) = EnvConfig.get_flags w ∧
  (group_by_owner (EnvConfig.get_flags w) = true ↔
   environ w !! "INV_GROUP_BY_OWNER" = None ∨
   ∃ v, environ w !! "INV_GROUP_BY_OWNER" = Some v ∧ Text.lower v ∈ truthy_tokens) ∧
  (group_by_state (EnvConfig.get_flags w) = true ↔
   environ w !! "INV_GROUP_BY_STATE" = None ∨
   ∃ v, environ w !! "INV_GROUP_BY_STATE" = Some v ∧ Text.lower v ∈ truthy_tokens) ∧
  (group_by_custom (EnvConfig.get_flags w) = true ↔
   environ w !! "INV_GROUP_BY_CUSTOM" = None ∨
   ∃ v, environ w !! "INV_GROUP_BY_CUSTOM" = Some v ∧ Text.lower v ∈ truthy_tokens).
Proof.
  assert (∀ name, EnvConfig._envflag w name true = true ↔
                  environ w !! name = None ∨
                  ∃ v, environ w !! name = Some v ∧ Text.lower v ∈ truthy_tokens) as Hflag.
  { intros name. unfold EnvConfig._envflag, EnvConfig.getenv.
    destruct (environ w !! name) as [v|]; [|by split; [left|]].
    rewrite bool_decide_eq_true. split; [by right; eexists|].
    by intros [?|(? & [= <-] & ?)]. }
  split; [done|]. repeat split; apply Hflag.
Qed.

End flag_properties.

Section success_properties.
Import Application.

Lemma Ok_satisfies {A} (r : result A) (P : A → bool) :
  match r with Ok a => P a | Raise _ => true end = true → ∀ a, r = Ok a → P a = true.
Proof. by intros Htest a ->. Qed.



(** X21. In an assembled document the host of every row is listed under
    some group name, and it is a key of [_meta.hostvars] unless the classifier
    made a group named [_meta]. *)
Theorem hosts_are_covered self rows inv r hostname :
  AnsibleInventoryBuilder.build self rows = Ok inv →
  r ∈ rows → r !! "vm_name" = Some hostname →
  (∃ g hosts, inv !! g = Some (Hosts hosts) ∧ hostname ∈ hosts) ∧
  ((∀ gs, DynamicGrouper.generate_groups (AnsibleInventoryBuilder.grouper self) rows = Ok gs →
          gs !! "_meta" = None) →
   is_Some (InventoryOutput.meta_hostvars inv !! hostname)).
Proof. apply build_covers_hosts. Qed.

Lemma hosts_are_covered_witness :
  ∃ inv, AnsibleInventoryBuilder.build all_rules_builder [vm_row; plain_row] = Ok inv ∧
    (∃ g hosts, inv !! g = Some (Hosts hosts) ∧ Some "vm0" ∈ hosts) ∧
    is_Some (InventoryOutput.meta_hostvars inv !! Some "vm0").
Proof.
  assert (is_Ok (AnsibleInventoryBuilder.build all_rules_builder [vm_row; plain_row]) = true)
    as [inv Hbuild]%is_Ok_inv by reflexivity.
  exists inv. split; [exact Hbuild|].
  destruct (hosts_are_covered all_rules_builder [vm_row; plain_row] inv plain_row (Some "vm0")
              Hbuild) as [Hlisted Hvars].
  - right. left.
  - reflexivity.
  - split; [exact Hlisted|]. apply Hvars.
    intros gs Hgroups.
    apply (Ok_satisfies _ (λ gs, bool_decide (gs !! "_meta" = None))) in Hgroups;
      [|reflexivity].
    exact (proj1 (bool_decide_eq_true _) Hgroups).
Defined.

End success_properties.
